(** * Activation gate, command dispatch and event routing of the
      C/C++ language-service glue layer (LanguageServer/extension.ts)

    The TypeScript module keeps its state in module-level [let] variables and
    talks to the editor host through callbacks.  The embedding threads one
    [State] record through every handler: the module variables, the part of
    the host the module mutates (subscriptions, the workspace memento, timers)
    and a chronological trace of the calls made on external collaborators.
    A handler is a computation in the monad [M]; a JavaScript exception is a
    [Throw] completion that keeps the mutations made before it. *)

From Stdlib Require Import String Ascii List Bool Arith Lia.
Import ListNotations.
Local Open Scope string_scope.
Local Open Scope list_scope.

(** ** Host data (the vscode and node objects the module reads) *)

(** A [vscode.Uri] object.  [uri_ref] is the identity of the object (what
    [===] and [!==] compare), [uri_toString] is what [uri.toString()]
    returns. *)
Record Uri := mkUri {
  uri_ref : nat;
  fsPath : string;
  uri_toString : string
}.

Record Position := mkPosition { line : nat; character : nat }.

Record Selection := mkSelection { sel_start : Position; sel_end : Position }.

Record TextDocument := mkTextDocument {
  uri : Uri;
  languageId : string;
  fileName : string
}.

Record TextEditor := mkTextEditor {
  document : TextDocument;
  selection : Selection;
  viewColumn : nat
}.

Record WorkspaceFolder := mkWorkspaceFolder { wf_uri : Uri; wf_name : string }.

Record TextEditorSelectionChangeEvent := mkSelectionChangeEvent {
  textEditor : option TextEditor;
  selections : list Selection
}.

(** ** External collaborators *)

Record Client := mkClient { Name : string; RootPath : string }.

Record ClientKey := mkClientKey { ck_name : string; ck_key : string }.

(** Modelled from the spec: the class ClientCollection (clientCollection.ts)
    is not part of the sources at hand.  The spec describes it as a mapping
    from workspace key to client handle, in insertion order, with exactly one
    handle marked active, and the interface get/forEach/Count/Names/
    ActiveClient. *)
Record ClientCollection := mkClientCollection {
  languageClients : list (string * Client);
  ActiveClient : Client
}.

Definition Count (cc : ClientCollection) : nat := length (languageClients cc).

Definition Names (cc : ClientCollection) : list ClientKey :=
  map (fun kc => mkClientKey (Name (snd kc)) (fst kc)) (languageClients cc).

Fixpoint assoc_get {A} (key : string) (l : list (string * A)) : option A :=
  match l with
  | [] => None
  | (k, v) :: rest => if String.eqb k key then Some v else assoc_get key rest
  end.

(** [clients.get(key)]: the handle, or a falsy value for an unknown key. *)
Definition cc_get (cc : ClientCollection) (key : string) : option Client :=
  assoc_get key (languageClients cc).

Inductive UI := TheUI.

(** The snapshot of the host that one handler invocation observes. *)
Record Host := mkHost {
  workspaceFolders : option (list WorkspaceFolder);
  textDocuments : option (list TextDocument);
  activeTextEditor : option TextEditor;
  (** [fs.existsSync] *)
  existsSync : string -> bool;
  (** [path.join] *)
  path_join : string -> string -> string;
  (** [process.platform] *)
  platform : string;
  (** what [new ClientCollection()] builds in this workspace *)
  newClientCollection : ClientCollection;
  (** [clients.activeDocumentChanged(document)] *)
  activeDocumentChanged : ClientCollection -> TextDocument -> ClientCollection;
  (** what the workspace picker [ui.showWorkspaces] resolves to; the empty
      string stands for a dismissed picker *)
  pickedWorkspace : string;
  (** the host rejects [registerCommand] for an identifier that is already
      registered; [false] models a permissive host *)
  rejectsDuplicateCommands : bool
}.

(** ** The extension manifest (package.json)

    [util.getRawPackageJson()] hands out the parsed manifest as a value of
    type [any]; the handler reads [categories] (an array) and [contributes]
    (an object).  Objects keep their keys in insertion order. *)

#[local] Set Warnings "-register-all".
Inductive Json :=
| JNull
| JBool (b : bool)
| JNumber (n : nat)
| JString (s : string)
| JArray (items : list Json)
| JObject (props : list (string * Json)).

Record Manifest := mkManifest {
  categories : list Json;
  contributes : list (string * Json)
}.

(** ** Subscriptions and the trace of external calls *)

Inductive Subscription :=
| SubCommand (id : string)
| SubDidOpenTextDocument
| SubDidChangeConfiguration
| SubDidSaveTextDocument
| SubDidChangeActiveTextEditor
| SubDidChangeTextEditorSelection
| SubDidChangeVisibleTextEditors
| SubLanguageConfiguration (language : string).

Record Disposable := mkDisposable { d_handle : nat; d_sub : Subscription }.

Inductive Effect :=
| ConsoleLog (msg : string)
| ConstructClientCollection
| GetUI
| Subscribed (d : Disposable)
| Disposed (d : Disposable)
| SetInterval (callback : string) (ms : nat)
| RegisterCustomProviders (c : Client)
| ClientsActiveDocumentChanged (doc : TextDocument)
| ClientSelectionChanged (c : Client) (p : Position)
| UiActiveDocumentChanged
| UiShowWorkspaces (names : list ClientKey)
| UiShowNavigationOptions
| ClientCall (c : Client) (method : string)
| SettingsCall (c : Client) (method : string) (setting : string)
| ShowInformationMessage (msg : string)
| ExecuteCommand (id : string)
| UtilShowReleaseNotes
| LogLanguageServerEvent (name : string)
| WatchCrashFolder
| WriteFile (content : Manifest).

(** ** Module state *)

Record State := mkState {
  (** [let clients: ClientCollection] ([None] is [undefined]) *)
  clients : option ClientCollection;
  (** [let ui: UI] *)
  ui : option UI;
  (** [let activeDocument: string] *)
  activeDocument : option string;
  (** [let disposables: vscode.Disposable[] = []] *)
  disposables : list Disposable;
  (** [let languageConfigurations: vscode.Disposable[] = []] *)
  languageConfigurations : list Disposable;
  (** [let intervalTimer: NodeJS.Timer] *)
  intervalTimer : option nat;
  (** [let realActivationOccurred: boolean = false] *)
  realActivationOccurred : bool;
  (** [let tempCommands: vscode.Disposable[] = []] *)
  tempCommands : list Disposable;
  (** [let activatedPreviously: PersistentWorkspaceState<boolean>]; [true]
      once the variable holds an object *)
  activatedPreviously : bool;
  (** the workspace memento entry under the key activatedPreviously;
      [None] when the key was never stored *)
  workspaceState : option bool;
  (** the manifest object behind [util.getRawPackageJson()] *)
  rawPackageJson : Manifest;
  (** live subscriptions held by the host *)
  listeners : list Disposable;
  (** next fresh handle for disposables and timers *)
  nextHandle : nat;
  (** calls made so far, oldest first *)
  trace : list Effect
}.

Definition initialState (stored : option bool) (manifest : Manifest) : State :=
  mkState None None None [] [] None false [] false stored manifest [] 0 [].

Definition set_clients (v : option ClientCollection) (s : State) : State :=
  mkState v (ui s) (activeDocument s) (disposables s) (languageConfigurations
    s) (intervalTimer s) (realActivationOccurred s) (tempCommands s)
    (activatedPreviously s) (workspaceState s) (rawPackageJson s) (listeners
    s) (nextHandle s) (trace s).

Definition set_ui (v : option UI) (s : State) : State :=
  mkState (clients s) v (activeDocument s) (disposables s)
    (languageConfigurations s) (intervalTimer s) (realActivationOccurred s)
    (tempCommands s) (activatedPreviously s) (workspaceState s)
    (rawPackageJson s) (listeners s) (nextHandle s) (trace s).

Definition set_activeDocument (v : option string) (s : State) : State :=
  mkState (clients s) (ui s) v (disposables s) (languageConfigurations s)
    (intervalTimer s) (realActivationOccurred s) (tempCommands s)
    (activatedPreviously s) (workspaceState s) (rawPackageJson s) (listeners
    s) (nextHandle s) (trace s).

Definition set_disposables (v : list Disposable) (s : State) : State :=
  mkState (clients s) (ui s) (activeDocument s) v (languageConfigurations s)
    (intervalTimer s) (realActivationOccurred s) (tempCommands s)
    (activatedPreviously s) (workspaceState s) (rawPackageJson s) (listeners
    s) (nextHandle s) (trace s).

Definition set_languageConfigurations (v : list Disposable) (s : State) : State :=
  mkState (clients s) (ui s) (activeDocument s) (disposables s) v
    (intervalTimer s) (realActivationOccurred s) (tempCommands s)
    (activatedPreviously s) (workspaceState s) (rawPackageJson s) (listeners
    s) (nextHandle s) (trace s).

Definition set_intervalTimer (v : option nat) (s : State) : State :=
  mkState (clients s) (ui s) (activeDocument s) (disposables s)
    (languageConfigurations s) v (realActivationOccurred s) (tempCommands s)
    (activatedPreviously s) (workspaceState s) (rawPackageJson s) (listeners
    s) (nextHandle s) (trace s).

Definition set_realActivationOccurred (v : bool) (s : State) : State :=
  mkState (clients s) (ui s) (activeDocument s) (disposables s)
    (languageConfigurations s) (intervalTimer s) v (tempCommands s)
    (activatedPreviously s) (workspaceState s) (rawPackageJson s) (listeners
    s) (nextHandle s) (trace s).

Definition set_tempCommands (v : list Disposable) (s : State) : State :=
  mkState (clients s) (ui s) (activeDocument s) (disposables s)
    (languageConfigurations s) (intervalTimer s) (realActivationOccurred s) v
    (activatedPreviously s) (workspaceState s) (rawPackageJson s) (listeners
    s) (nextHandle s) (trace s).

Definition set_activatedPreviously (v : bool) (s : State) : State :=
  mkState (clients s) (ui s) (activeDocument s) (disposables s)
    (languageConfigurations s) (intervalTimer s) (realActivationOccurred s)
    (tempCommands s) v (workspaceState s) (rawPackageJson s) (listeners s)
    (nextHandle s) (trace s).

Definition set_workspaceState (v : option bool) (s : State) : State :=
  mkState (clients s) (ui s) (activeDocument s) (disposables s)
    (languageConfigurations s) (intervalTimer s) (realActivationOccurred s)
    (tempCommands s) (activatedPreviously s) v (rawPackageJson s) (listeners
    s) (nextHandle s) (trace s).

Definition set_rawPackageJson (v : Manifest) (s : State) : State :=
  mkState (clients s) (ui s) (activeDocument s) (disposables s)
    (languageConfigurations s) (intervalTimer s) (realActivationOccurred s)
    (tempCommands s) (activatedPreviously s) (workspaceState s) v (listeners
    s) (nextHandle s) (trace s).

Definition set_listeners (v : list Disposable) (s : State) : State :=
  mkState (clients s) (ui s) (activeDocument s) (disposables s)
    (languageConfigurations s) (intervalTimer s) (realActivationOccurred s)
    (tempCommands s) (activatedPreviously s) (workspaceState s)
    (rawPackageJson s) v (nextHandle s) (trace s).

Definition set_nextHandle (v : nat) (s : State) : State :=
  mkState (clients s) (ui s) (activeDocument s) (disposables s)
    (languageConfigurations s) (intervalTimer s) (realActivationOccurred s)
    (tempCommands s) (activatedPreviously s) (workspaceState s)
    (rawPackageJson s) (listeners s) v (trace s).

Definition set_trace (v : list Effect) (s : State) : State :=
  mkState (clients s) (ui s) (activeDocument s) (disposables s)
    (languageConfigurations s) (intervalTimer s) (realActivationOccurred s)
    (tempCommands s) (activatedPreviously s) (workspaceState s)
    (rawPackageJson s) (listeners s) (nextHandle s) v.

(** ** The handler monad: state plus JavaScript exceptions *)

Inductive Error :=
| TypeError (what : string)
| HostError (what : string).

Inductive Completion (A : Type) :=
| Normal (a : A)
| Throw (e : Error).
Arguments Normal {A} a.
Arguments Throw {A} e.

Definition M (A : Type) : Type := State -> State * Completion A.

Definition ret {A} (a : A) : M A := fun s => (s, Normal a).

Definition bind {A B} (m : M A) (k : A -> M B) : M B :=
  fun s =>
    match m s with
    | (s', Normal a) => k a s'
    | (s', Throw e) => (s', Throw e)
    end.

Definition throw {A} (e : Error) : M A := fun s => (s, Throw e).

Definition gets {A} (f : State -> A) : M A := fun s => (s, Normal (f s)).

Definition modify (f : State -> State) : M unit := fun s => (f s, Normal tt).

Declare Scope js_scope.
Delimit Scope js_scope with js.
Notation "x <- c1 ;; c2" := (bind c1 (fun x => c2))
  (at level 61, c1 at next level, right associativity) : js_scope.
Notation "c1 ;; c2" := (bind c1 (fun _ => c2))
  (at level 61, right associativity) : js_scope.
Local Open Scope js_scope.

Definition exec {A} (m : M A) (s : State) : State := fst (m s).
Definition completion {A} (m : M A) (s : State) : Completion A := snd (m s).

(** [array.forEach(f)] with a callback that may throw. *)
Fixpoint forEach {A} (l : list A) (f : A -> M unit) : M unit :=
  match l with
  | [] => ret tt
  | x :: rest => f x ;; forEach rest f
  end.

Definition emit (e : Effect) : M unit :=
  modify (fun s => set_trace (trace s ++ [e]) s).

Definition console_log (msg : string) : M unit := emit (ConsoleLog msg).

(** ** Host services used by the module *)

Definition fresh : M nat :=
  n <- gets nextHandle ;;
  modify (set_nextHandle (S n)) ;;
  ret n.

(** Every [vscode.*.onDid...(listener)] and [registerCommand] call returns a
    disposable and leaves a live subscription in the host. *)
Definition subscribe (sub : Subscription) : M Disposable :=
  n <- fresh ;;
  let d := mkDisposable n sub in
  modify (fun s => set_listeners (listeners s ++ [d]) s) ;;
  emit (Subscribed d) ;;
  ret d.

Definition same_handle (d e : Disposable) : bool :=
  Nat.eqb (d_handle d) (d_handle e).

(** [d.dispose()] *)
Definition dispose (d : Disposable) : M unit :=
  modify (fun s =>
    set_listeners (filter (fun e => negb (same_handle d e)) (listeners s)) s) ;;
  emit (Disposed d).

Definition is_command (id : string) (d : Disposable) : bool :=
  match d_sub d with
  | SubCommand id' => String.eqb id id'
  | _ => false
  end.

(** [vscode.commands.registerCommand(id, handler)] *)
Definition registerCommand (h : Host) (id : string) : M Disposable :=
  ls <- gets listeners ;;
  if rejectsDuplicateCommands h && existsb (is_command id) ls
  then throw (HostError "command already exists")
  else subscribe (SubCommand id).

Definition push_disposable (d : Disposable) : M unit :=
  modify (fun s => set_disposables (disposables s ++ [d]) s).

(** Modelled from the spec: the class PersistentWorkspaceState
    (persistentState.ts) is not part of the sources at hand.  The spec
    describes one boolean workspace-scoped flag stored under the key
    "activatedPreviously" that survives restarts; the constructor's second
    argument is the value read while the key is absent. *)
Definition new_PersistentWorkspaceState : M unit :=
  modify (set_activatedPreviously true).

Definition get_Value : M bool :=
  ap <- gets activatedPreviously ;;
  if ap then
    ws <- gets workspaceState ;;
    ret (match ws with Some b => b | None => false end)
  else throw (TypeError "activatedPreviously is undefined").

Definition set_Value (b : bool) : M unit :=
  ap <- gets activatedPreviously ;;
  if ap then modify (set_workspaceState (Some b))
  else throw (TypeError "activatedPreviously is undefined").

Definition the_clients : M ClientCollection :=
  cc <- gets clients ;;
  match cc with
  | Some c => ret c
  | None => throw (TypeError "clients is undefined")
  end.

(** [clients.ActiveClient] *)
Definition clients_ActiveClient : M Client :=
  cc <- the_clients ;;
  ret (ActiveClient cc).

Definition the_ui : M UI :=
  u <- gets ui ;;
  match u with
  | Some x => ret x
  | None => throw (TypeError "ui is undefined")
  end.

Definition ui_activeDocumentChanged : M unit :=
  the_ui ;; emit UiActiveDocumentChanged.

(** [clients.activeDocumentChanged(document)] *)
Definition clients_activeDocumentChanged (h : Host) (doc : TextDocument) : M unit :=
  cc <- the_clients ;;
  modify (set_clients (Some (activeDocumentChanged h cc doc))) ;;
  emit (ClientsActiveDocumentChanged doc).

(** [clients.ActiveClient.selectionChanged(position)] *)
Definition activeClient_selectionChanged (p : Position) : M unit :=
  c <- clients_ActiveClient ;;
  emit (ClientSelectionChanged c p).

Definition is_c_or_cpp (languageId : string) : bool :=
  String.eqb languageId "cpp" || String.eqb languageId "c".

Definition nonempty {A} (l : option (list A)) : bool :=
  match l with
  | Some (_ :: _) => true
  | _ => false
  end.

(** [isFolderOpen] *)
Definition isFolderOpen (h : Host) : bool := nonempty (workspaceFolders h).

(** ** Event handlers reached from activation *)

(** [onDidChangeActiveTextEditor] *)
Definition onDidChangeActiveTextEditor (h : Host) (editor : option TextEditor) : M unit :=
  cc <- gets clients ;;
  match cc with
  | None => ret tt
  | Some _ =>
    (match activeTextEditor h with
     | Some activeEditor =>
       if is_c_or_cpp (languageId (document activeEditor)) then
         match editor with
         | Some ed =>
           modify (set_activeDocument (Some (uri_toString (uri (document ed))))) ;;
           clients_activeDocumentChanged h (document ed) ;;
           activeClient_selectionChanged (sel_start (selection ed))
         | None => throw (TypeError "editor is undefined")
         end
       else modify (set_activeDocument (Some EmptyString))
     | None => modify (set_activeDocument (Some EmptyString))
     end) ;;
    ui_activeDocumentChanged
  end.

(** [updateLanguageConfigurations] *)
Definition updateLanguageConfigurations : M unit :=
  lc <- gets languageConfigurations ;;
  forEach lc dispose ;;
  modify (set_languageConfigurations []) ;;
  clients_ActiveClient ;;
  c <- subscribe (SubLanguageConfiguration "c") ;;
  modify (fun s => set_languageConfigurations (languageConfigurations s ++ [c]) s) ;;
  clients_ActiveClient ;;
  cpp <- subscribe (SubLanguageConfiguration "cpp") ;;
  modify (fun s => set_languageConfigurations (languageConfigurations s ++ [cpp]) s).

(** [reportMacCrashes]: only the synchronous part, the watcher itself is an
    external collaborator. *)
Definition reportMacCrashes (h : Host) : M unit :=
  if String.eqb (platform h) "darwin" then emit WatchCrashFolder else ret tt.

(** [intervalTimer = setInterval(onInterval, 2500)] *)
Definition start_intervalTimer : M unit :=
  n <- fresh ;;
  modify (set_intervalTimer (Some n)) ;;
  emit (SetInterval "onInterval" 2500).

(** ** The activation gate *)

(** [realActivation] *)
Definition realActivation (h : Host) : M unit :=
  modify (set_realActivationOccurred true) ;;
  console_log "starting language server" ;;
  modify (set_clients (Some (newClientCollection h))) ;;
  emit ConstructClientCollection ;;
  modify (set_ui (Some TheUI)) ;;
  emit GetUI ;;
  (if nonempty (textDocuments h)
   then onDidChangeActiveTextEditor h (activeTextEditor h)
   else ret tt) ;;
  cc <- the_clients ;;
  forEach (languageClients cc) (fun kc => emit (RegisterCustomProviders (snd kc))) ;;
  (d <- subscribe SubDidChangeConfiguration ;; push_disposable d) ;;
  (d <- subscribe SubDidSaveTextDocument ;; push_disposable d) ;;
  (d <- subscribe SubDidChangeActiveTextEditor ;; push_disposable d) ;;
  (d <- subscribe SubDidChangeTextEditorSelection ;; push_disposable d) ;;
  (d <- subscribe SubDidChangeVisibleTextEditors ;; push_disposable d) ;;
  updateLanguageConfigurations ;;
  reportMacCrashes h ;;
  start_intervalTimer.

(** [onActivationEvent] *)
Definition onActivationEvent (h : Host) : M unit :=
  tc <- gets tempCommands ;;
  if Nat.eqb (length tc) 0 then ret tt
  else
    forEach tc dispose ;;
    modify (set_tempCommands []) ;;
    occurred <- gets realActivationOccurred ;;
    (if negb occurred then realActivation h else ret tt) ;;
    set_Value true.

(** [onDidOpenTextDocument] *)
Definition onDidOpenTextDocument (h : Host) (d : TextDocument) : M unit :=
  if String.eqb (languageId d) "c" || String.eqb (languageId d) "cpp"
  then onActivationEvent h
  else ret tt.

(** The eighteen command identifiers, in registration order. *)
Inductive Command :=
| Navigate | GoToDeclaration | PeekDeclaration | SwitchHeaderSource
| ResetDatabase | ConfigurationSelect | ConfigurationProviderSelect
| ConfigurationEdit | AddToIncludePath | ToggleErrorSquiggles
| ToggleSnippets | ToggleIncludeFallback | ToggleDimInactiveRegions
| ShowReleaseNotes | PauseParsing | ResumeParsing | ShowParsingCommands
| TakeSurvey.

Definition commandId (c : Command) : string :=
  match c with
  | Navigate => "C_Cpp.Navigate"
  | GoToDeclaration => "C_Cpp.GoToDeclaration"
  | PeekDeclaration => "C_Cpp.PeekDeclaration"
  | SwitchHeaderSource => "C_Cpp.SwitchHeaderSource"
  | ResetDatabase => "C_Cpp.ResetDatabase"
  | ConfigurationSelect => "C_Cpp.ConfigurationSelect"
  | ConfigurationProviderSelect => "C_Cpp.ConfigurationProviderSelect"
  | ConfigurationEdit => "C_Cpp.ConfigurationEdit"
  | AddToIncludePath => "C_Cpp.AddToIncludePath"
  | ToggleErrorSquiggles => "C_Cpp.ToggleErrorSquiggles"
  | ToggleSnippets => "C_Cpp.ToggleSnippets"
  | ToggleIncludeFallback => "C_Cpp.ToggleIncludeFallback"
  | ToggleDimInactiveRegions => "C_Cpp.ToggleDimInactiveRegions"
  | ShowReleaseNotes => "C_Cpp.ShowReleaseNotes"
  | PauseParsing => "C_Cpp.PauseParsing"
  | ResumeParsing => "C_Cpp.ResumeParsing"
  | ShowParsingCommands => "C_Cpp.ShowParsingCommands"
  | TakeSurvey => "C_Cpp.TakeSurvey"
  end.

Definition commandTable : list Command :=
  [ Navigate; GoToDeclaration; PeekDeclaration; SwitchHeaderSource;
    ResetDatabase; ConfigurationSelect; ConfigurationProviderSelect;
    ConfigurationEdit; AddToIncludePath; ToggleErrorSquiggles;
    ToggleSnippets; ToggleIncludeFallback; ToggleDimInactiveRegions;
    ShowReleaseNotes; PauseParsing; ResumeParsing; ShowParsingCommands;
    TakeSurvey ].

(** [registerCommands] *)
Definition registerCommands (h : Host) : M unit :=
  forEach commandTable (fun c =>
    d <- registerCommand h (commandId c) ;;
    push_disposable d).

Definition config_marker : string := ".vscode/c_cpp_properties.json".

Definition folder_has_config (h : Host) (f : WorkspaceFolder) : bool :=
  existsSync h (path_join h (fsPath (wf_uri f)) config_marker).

Definition some_folder_has_config (h : Host) : bool :=
  match workspaceFolders h with
  | Some fs => existsb (folder_has_config h) fs
  | None => false
  end.

Definition some_document_is_c_or_cpp (h : Host) : bool :=
  match textDocuments h with
  | Some ds => existsb (fun d => String.eqb (languageId d) "cpp" || String.eqb (languageId d) "c") ds
  | None => false
  end.

(** [activate] *)
Definition activate (h : Host) (activationEventOccurred : bool) : M unit :=
  console_log "activating extension" ;;
  new_PersistentWorkspaceState ;;
  v <- get_Value ;;
  (if v then set_Value false ;; realActivation h else ret tt) ;;
  registerCommands h ;;
  (d <- subscribe SubDidOpenTextDocument ;;
   modify (fun s => set_tempCommands (tempCommands s ++ [d]) s)) ;;
  if activationEventOccurred then onActivationEvent h
  else if some_folder_has_config h then onActivationEvent h
  else if some_document_is_c_or_cpp h then onActivationEvent h
  else ret tt.

(** [getClients] *)
Definition getClients (h : Host) : M (option ClientCollection) :=
  occurred <- gets realActivationOccurred ;;
  (if negb occurred then realActivation h else ret tt) ;;
  gets clients.

(** [getActiveClient] *)
Definition getActiveClient (h : Host) : M Client :=
  occurred <- gets realActivationOccurred ;;
  (if negb occurred then realActivation h else ret tt) ;;
  clients_ActiveClient.

(** ** Client selection *)

(** The settled value of a promise. *)
Inductive Settled (A : Type) :=
| Resolved (a : A)
| Rejected (reason : string).
Arguments Resolved {A} a.
Arguments Rejected {A} reason.

(** [promise.then(onFulfilled, onRejected)] *)
Definition then_ {A} (p : Settled A) (onFulfilled : A -> M unit)
    (onRejected : string -> M unit) : M unit :=
  match p with
  | Resolved a => onFulfilled a
  | Rejected r => onRejected r
  end.

(** [ui.showWorkspaces(names)]: the picker is shown and resolves to the key
    the user picks. *)
Definition ui_showWorkspaces (h : Host) (names : list ClientKey) : M string :=
  the_ui ;;
  emit (UiShowWorkspaces names) ;;
  ret (pickedWorkspace h).

(** [selectClient].  [console.assert] of a non-empty string literal never
    fires, so the unknown-key branch falls through to the rejection. *)
Definition selectClient (h : Host) : M (Settled Client) :=
  cc <- the_clients ;;
  if Nat.eqb (Count cc) 1 then
    c <- clients_ActiveClient ;;
    ret (Resolved c)
  else
    key <- ui_showWorkspaces h (Names cc) ;;
    if negb (String.eqb key EmptyString) then
      cc' <- the_clients ;;
      match cc_get cc' key with
      | Some client => ret (Resolved client)
      | None => ret (Rejected "client not found")
      end
    else ret (Rejected "client not found").

Definition client_call (c : Client) (method : string) : M unit :=
  emit (ClientCall c method).

Definition activeClient_call (method : string) : M unit :=
  c <- clients_ActiveClient ;;
  client_call c method.

(** ** The snippets toggle on the manifest *)

(** [array.findIndex(p)]; [None] is the result [-1]. *)
Fixpoint findIndex {A} (p : A -> bool) (l : list A) : option nat :=
  match l with
  | [] => None
  | x :: rest =>
    if p x then Some 0
    else match findIndex p rest with
         | Some i => Some (S i)
         | None => None
         end
  end.

(** [value === s] for a string primitive [s] *)
Definition strict_eq_string (s : string) (value : Json) : bool :=
  match value with
  | JString t => String.eqb t s
  | _ => false
  end.

(** [array.indexOf(s)] compares with [===]. *)
Definition indexOf (s : string) (l : list Json) : option nat :=
  findIndex (strict_eq_string s) l.

(** [array.splice(ndx, 1)] *)
Fixpoint splice1 {A} (ndx : nat) (l : list A) : list A :=
  match l, ndx with
  | [], _ => []
  | _ :: rest, 0 => rest
  | x :: rest, S n => x :: splice1 n rest
  end.

(** [object[key] = value]: an existing key keeps its place, a new key goes
    last. *)
Fixpoint obj_set (key : string) (value : Json) (props : list (string * Json))
    : list (string * Json) :=
  match props with
  | [] => [(key, value)]
  | (k, v) :: rest =>
    if String.eqb k key then (k, value) :: rest
    else (k, v) :: obj_set key value rest
  end.

(** [delete object[key]] *)
Fixpoint obj_delete (key : string) (props : list (string * Json))
    : list (string * Json) :=
  match props with
  | [] => []
  | (k, v) :: rest =>
    if String.eqb k key then rest
    else (k, v) :: obj_delete key rest
  end.

Definition snippetsCatName : string := "Snippets".

Definition snippets_node : Json :=
  JArray
    [ JObject [("language", JString "cpp"); ("path", JString "./cpp_snippets.json")];
      JObject [("language", JString "c"); ("path", JString "./cpp_snippets.json")] ].

Definition enabling_prompt : string := "Reload Window to finish enabling C++ snippets".
Definition disabling_prompt : string := "Reload Window to finish disabling C++ snippets".

(** The transformation [onToggleSnippets] applies to the manifest, with the
    reload prompt of the branch taken. *)
Definition toggleSnippets (m : Manifest) : Manifest * string :=
  match findIndex (strict_eq_string snippetsCatName) (categories m) with
  | None =>
    (mkManifest (categories m ++ [JString snippetsCatName])
                (obj_set "snippets" snippets_node (contributes m)),
     enabling_prompt)
  | Some _ =>
    let cats :=
      match indexOf snippetsCatName (categories m) with
      | Some ndxCat => splice1 ndxCat (categories m)
      | None => categories m
      end in
    (mkManifest cats (obj_delete "snippets" (contributes m)), disabling_prompt)
  end.

(** ** Command handlers *)

Definition info (msg : string) : M unit := emit (ShowInformationMessage msg).

(** [onNavigate] *)
Definition onNavigate (h : Host) : M unit :=
  onActivationEvent h ;;
  match activeTextEditor h with
  | None => ret tt
  | Some _ =>
    activeClient_call "requestNavigationList" ;;
    the_ui ;;
    emit UiShowNavigationOptions
  end.

(** [onGoToDeclaration] *)
Definition onGoToDeclaration (h : Host) : M unit :=
  onActivationEvent h ;;
  activeClient_call "requestGoToDeclaration" ;;
  emit (ExecuteCommand "editor.action.goToDeclaration").

(** [onPeekDeclaration] *)
Definition onPeekDeclaration (h : Host) : M unit :=
  onActivationEvent h ;;
  activeClient_call "requestGoToDeclaration" ;;
  emit (ExecuteCommand "editor.action.previewDeclaration").

(** [onSwitchHeaderSource], up to the request sent to the client; opening the
    answer in an editor column happens in the continuation, on the host. *)
Definition onSwitchHeaderSource (h : Host) : M unit :=
  onActivationEvent h ;;
  match activeTextEditor h with
  | None => ret tt
  | Some activeEditor =>
    if negb (String.eqb (languageId (document activeEditor)) "cpp")
       && negb (String.eqb (languageId (document activeEditor)) "c")
    then ret tt
    else activeClient_call "requestSwitchHeaderSource"
  end.

(** [onResetDatabase] *)
Definition onResetDatabase (h : Host) : M unit :=
  onActivationEvent h ;;
  p <- selectClient h ;;
  then_ p (fun client => client_call client "resetDatabase") (fun _ => ret tt).

(** [onSelectConfiguration] *)
Definition onSelectConfiguration (h : Host) : M unit :=
  onActivationEvent h ;;
  if negb (isFolderOpen h)
  then info "Open a folder first to select a configuration"
  else activeClient_call "handleConfigurationSelectCommand".

(** [onSelectConfigurationProvider] *)
Definition onSelectConfigurationProvider (h : Host) : M unit :=
  onActivationEvent h ;;
  if negb (isFolderOpen h)
  then info "Open a folder first to select a configuration provider"
  else
    p <- selectClient h ;;
    then_ p (fun client => client_call client "handleConfigurationProviderSelectCommand")
            (fun _ => ret tt).

(** [onEditConfiguration] *)
Definition onEditConfiguration (h : Host) : M unit :=
  onActivationEvent h ;;
  if negb (isFolderOpen h)
  then info "Open a folder first to edit configurations"
  else
    p <- selectClient h ;;
    then_ p (fun client => client_call client "handleConfigurationEditCommand")
            (fun _ => ret tt).

(** [onAddToIncludePath] *)
Definition onAddToIncludePath (h : Host) (path : string) : M unit :=
  if negb (isFolderOpen h)
  then info "Open a folder first to add to includePath"
  else activeClient_call "handleAddToIncludePathCommand".

(** [new CppSettings(clients.ActiveClient.RootUri)] followed by one call on
    the settings object *)
Definition activeClient_settings (method setting : string) : M unit :=
  c <- clients_ActiveClient ;;
  emit (SettingsCall c method setting).

(** [onToggleSquiggles] *)
Definition onToggleSquiggles (h : Host) : M unit :=
  onActivationEvent h ;;
  activeClient_settings "toggleSetting" "errorSquiggles".

(** [onToggleSnippets]; [showReloadPrompt] runs once the file is written. *)
Definition onToggleSnippets (h : Host) : M unit :=
  onActivationEvent h ;;
  newPackageJson <- gets rawPackageJson ;;
  let result := toggleSnippets newPackageJson in
  modify (set_rawPackageJson (fst result)) ;;
  emit (WriteFile (fst result)) ;;
  info (snd result).

(** [onToggleIncludeFallback] *)
Definition onToggleIncludeFallback (h : Host) : M unit :=
  onActivationEvent h ;;
  activeClient_settings "toggleSetting" "intelliSenseEngineFallback".

(** [onToggleDimInactiveRegions] *)
Definition onToggleDimInactiveRegions (h : Host) : M unit :=
  onActivationEvent h ;;
  activeClient_settings "update" "dimInactiveRegions".

(** [onShowReleaseNotes] *)
Definition onShowReleaseNotes (h : Host) : M unit :=
  onActivationEvent h ;;
  emit UtilShowReleaseNotes.

(** [onPauseParsing] *)
Definition onPauseParsing (h : Host) : M unit :=
  onActivationEvent h ;;
  p <- selectClient h ;;
  then_ p (fun client => client_call client "pauseParsing") (fun _ => ret tt).

(** [onResumeParsing] *)
Definition onResumeParsing (h : Host) : M unit :=
  onActivationEvent h ;;
  p <- selectClient h ;;
  then_ p (fun client => client_call client "resumeParsing") (fun _ => ret tt).

(** [onShowParsingCommands] *)
Definition onShowParsingCommands (h : Host) : M unit :=
  onActivationEvent h ;;
  p <- selectClient h ;;
  then_ p (fun client => client_call client "handleShowParsingCommands") (fun _ => ret tt).

(** [onTakeSurvey] *)
Definition onTakeSurvey (h : Host) : M unit :=
  onActivationEvent h ;;
  emit (LogLanguageServerEvent "onTakeSurvey") ;;
  emit (ExecuteCommand "vscode.open").

(** The handler [registerCommands] binds to each identifier. *)
Definition handler (c : Command) (h : Host) (arg : string) : M unit :=
  match c with
  | Navigate => onNavigate h
  | GoToDeclaration => onGoToDeclaration h
  | PeekDeclaration => onPeekDeclaration h
  | SwitchHeaderSource => onSwitchHeaderSource h
  | ResetDatabase => onResetDatabase h
  | ConfigurationSelect => onSelectConfiguration h
  | ConfigurationProviderSelect => onSelectConfigurationProvider h
  | ConfigurationEdit => onEditConfiguration h
  | AddToIncludePath => onAddToIncludePath h arg
  | ToggleErrorSquiggles => onToggleSquiggles h
  | ToggleSnippets => onToggleSnippets h
  | ToggleIncludeFallback => onToggleIncludeFallback h
  | ToggleDimInactiveRegions => onToggleDimInactiveRegions h
  | ShowReleaseNotes => onShowReleaseNotes h
  | PauseParsing => onPauseParsing h
  | ResumeParsing => onResumeParsing h
  | ShowParsingCommands => onShowParsingCommands h
  | TakeSurvey => onTakeSurvey h
  end.

(** ** The selection-changed listener *)

Definition differs (tracker : option string) (s : string) : bool :=
  match tracker with
  | Some t => negb (String.eqb t s)
  | None => true
  end.

(** [onDidChangeTextEditorSelection] *)
Definition onDidChangeTextEditorSelection (h : Host)
    (event : TextEditorSelectionChangeEvent) : M unit :=
  match textEditor event, activeTextEditor h with
  | Some ed, Some active =>
    if negb (Nat.eqb (uri_ref (uri (document ed))) (uri_ref (uri (document active))))
       || (negb (String.eqb (languageId (document ed)) "cpp")
           && negb (String.eqb (languageId (document ed)) "c"))
    then ret tt
    else
      tracker <- gets activeDocument ;;
      (if differs tracker (uri_toString (uri (document ed))) then
         modify (set_activeDocument (Some (uri_toString (uri (document ed))))) ;;
         clients_activeDocumentChanged h (document ed) ;;
         ui_activeDocumentChanged
       else ret tt) ;;
      c <- clients_ActiveClient ;;
      match selections event with
      | sel :: _ => emit (ClientSelectionChanged c (sel_start sel))
      | [] => throw (TypeError "event.selections[0] is undefined")
      end
  | _, _ => ret tt
  end.

(** ** Downloads *)

Definition Headers : Type := list (string * string).

(** One [https.request]: the URL it goes to and the [headers] option. *)
Record Request := mkRequest {
  req_url : string;
  req_headers : option Headers
}.

(** [response.headers.location] *)
Inductive Location :=
| LocationString (s : string)
| LocationArray (l : list string)
| LocationUndefined.

Record Response := mkResponse {
  statusCode : nat;
  location : Location;
  (** the body streams to the end without an 'error' event *)
  streamOk : bool
}.

Inductive Reply :=
| Responds (r : Response)
| RequestError.

(** The server side: what comes back for a request, headers included. *)
Definition Network : Type := Request -> Reply.

Inductive DownloadResult :=
| DownloadResolved
| DownloadRejected
(** the promise is never settled *)
| DownloadPending.

(** [downloadFileToDestination]; the requests issued, oldest first, and how
    the returned promise settles.  [fuel] bounds the length of the redirect
    chain that is followed. *)
Fixpoint downloadFileToDestination (net : Network) (fuel : nat)
    (urlStr destinationPath : string) (headers : option Headers)
    : list Request * DownloadResult :=
  match fuel with
  | 0 => ([], DownloadPending)
  | S fuel' =>
    let request := mkRequest urlStr headers in
    match net request with
    | RequestError => ([request], DownloadRejected)
    | Responds response =>
      if Nat.eqb (statusCode response) 301 || Nat.eqb (statusCode response) 302 then
        match location response with
        | LocationString redirectUrl
        | LocationArray (redirectUrl :: _) =>
          let next := downloadFileToDestination net fuel' redirectUrl destinationPath None in
          (request :: fst next, snd next)
        | LocationArray [] => ([request], DownloadRejected)
        | LocationUndefined => ([request], DownloadPending)
        end
      else if negb (Nat.eqb (statusCode response) 200) then ([request], DownloadRejected)
      else if streamOk response then ([request], DownloadResolved)
      else ([request], DownloadRejected)
    end
  end.

(** ** The self-update check *)

(** [a < b] on two strings: the first differing code unit decides, a proper
    prefix is smaller. *)
Fixpoint js_lt (a b : string) : bool :=
  match a, b with
  | _, EmptyString => false
  | EmptyString, String _ _ => true
  | String x a', String y b' =>
    if Nat.ltb (nat_of_ascii x) (nat_of_ascii y) then true
    else if Nat.ltb (nat_of_ascii y) (nat_of_ascii x) then false
    else js_lt a' b'
  end.

(** [a >= b] on two strings *)
Definition js_ge (a b : string) : bool := negb (js_lt a b).

(** [s.substr(start)] *)
Definition substr_from (start : nat) (s : string) : string :=
  substring start (String.length s - start) s.

(** The first immediately-invoked function of [checkAndApplyUpdate]; [None]
    is the result [null]. *)
Definition currentVersion (packageVersion : string) : option string :=
  match index 0 "-" packageVersion with
  | Some dashOffset =>
    if negb (String.eqb (substr_from (dashOffset + 1) packageVersion) "insiders")
    then None
    else Some (substring 0 dashOffset packageVersion)
  | None => Some packageVersion
  end.

Record Asset := mkAsset { asset_name : string; browser_download_url : string }.

Record Release := mkRelease { release_name : string; assets : list Asset }.

Record PlatformInformation := mkPlatformInformation {
  pi_platform : string;
  architecture : string
}.

(** What the update check reads from its surroundings. *)
Record UpdateEnv := mkUpdateEnv {
  (** [util.packageJson["version"]] *)
  packageVersion : string;
  network : Network;
  (** [util.getExtensionFilePath] *)
  getExtensionFilePath : string -> string;
  (** what [parseJsonAtPath] yields for the downloaded release list; [None]
      is [undefined] (missing file or malformed JSON) *)
  parsedReleases : option (list Release);
  platformInfo : PlatformInformation;
  (** [path.dirname(process.execPath)] *)
  vscodeProcessPath : string;
  (** [path.join(vscodeProcessPath, "bin", "code.cmd")] *)
  windowsCommandFile : string
}.

Inductive UpdateOutcome :=
(** returned at [!version] *)
| NotAReleaseBuild
(** the async function rejected: a failed download or a TypeError *)
| UpdateFailed
(** an awaited promise never settled *)
| UpdateUnsettled
(** returned at [!latestBuild] *)
| NoLatestBuild
(** returned at the version gate *)
| UpToDate
(** returned at [!vsixName] *)
| NoVsixName
(** returned at [!downloadUrl] *)
| NoDownloadUrl
(** returned at [!vsCodeCommandFile] *)
| NoCommandFile
(** [exec(command)] was reached *)
| Installed (command : string).

(** The second immediately-invoked function; [None] is [undefined]. *)
Definition vsixNameFor (p : PlatformInformation) : option string :=
  if String.eqb (pi_platform p) "linux" then
    if String.eqb (architecture p) "x86_64" then Some "cpptools-linux.vsix"
    else if String.eqb (architecture p) "x86" then Some "cpptools-linux32.vsix"
    else None
  else None.

(** The third immediately-invoked function. *)
Definition vsCodeCommandFileFor (env : UpdateEnv) : string :=
  if String.eqb (pi_platform (platformInfo env)) "windows"
  then windowsCommandFile env
  else vscodeProcessPath env.

Definition releases_url : string :=
  "https://api.github.com/repos/Microsoft/vscode-cpptools/releases".

Definition is_empty (s : string) : bool := String.eqb s EmptyString.

(** The part of [checkAndApplyUpdate] after the version gate. *)
Definition applyUpdate (env : UpdateEnv) (fuel : nat) (latestBuild : Release)
    : UpdateOutcome :=
  match vsixNameFor (platformInfo env) with
  | None => NoVsixName
  | Some vsixName =>
    if is_empty vsixName then NoVsixName else
    match find (fun asset => String.eqb (asset_name asset) vsixName) (assets latestBuild) with
    | None => UpdateFailed
    | Some asset =>
      let downloadUrl := browser_download_url asset in
      if is_empty downloadUrl then NoDownloadUrl else
      let vsixPath := getExtensionFilePath env vsixName in
      match snd (downloadFileToDestination (network env) fuel downloadUrl vsixPath None) with
      | DownloadRejected => UpdateFailed
      | DownloadPending => UpdateUnsettled
      | DownloadResolved =>
        let vsCodeCommandFile := vsCodeCommandFileFor env in
        if is_empty vsCodeCommandFile then NoCommandFile
        else Installed (vsCodeCommandFile ++ " --install-extension " ++ vsixPath)
      end
    end
  end.

(** [checkAndApplyUpdate] *)
Definition checkAndApplyUpdate (env : UpdateEnv) (fuel : nat) : UpdateOutcome :=
  match currentVersion (packageVersion env) with
  | None => NotAReleaseBuild
  | Some version =>
    if is_empty version then NotAReleaseBuild else
    let releaseJsonPath := getExtensionFilePath env "releases.json" in
    match snd (downloadFileToDestination (network env) fuel releases_url releaseJsonPath
                 (Some [("User-Agent", "vscode-cpptools")])) with
    | DownloadRejected => UpdateFailed
    | DownloadPending => UpdateUnsettled
    | DownloadResolved =>
      match parsedReleases env with
      | None => UpdateFailed
      | Some [] => NoLatestBuild
      | Some (latestBuild :: _) =>
        if js_ge version (release_name latestBuild) then UpToDate
        else applyUpdate env fuel latestBuild
      end
    end
  end.

(** ** Delivery of host events *)

Inductive Event :=
| EvActivate (activationEventOccurred : bool)
| EvDidOpenTextDocument (d : TextDocument)
| EvCommand (c : Command) (arg : string)
| EvGetClients
| EvGetActiveClient
| EvDidChangeTextEditorSelection (e : TextEditorSelectionChangeEvent).

Definition is_open_watcher (d : Disposable) : bool :=
  match d_sub d with
  | SubDidOpenTextDocument => true
  | _ => false
  end.

Definition is_selection_listener (d : Disposable) : bool :=
  match d_sub d with
  | SubDidChangeTextEditorSelection => true
  | _ => false
  end.

(** The host calls every live listener of the event; a command runs only
    while its identifier is registered. *)
Definition deliver (h : Host) (ev : Event) : M unit :=
  match ev with
  | EvActivate b => activate h b
  | EvDidOpenTextDocument d =>
    ls <- gets listeners ;;
    forEach (filter is_open_watcher ls) (fun _ => onDidOpenTextDocument h d)
  | EvCommand c arg =>
    ls <- gets listeners ;;
    if existsb (is_command (commandId c)) ls then handler c h arg else ret tt
  | EvGetClients => getClients h ;; ret tt
  | EvGetActiveClient => getActiveClient h ;; ret tt
  | EvDidChangeTextEditorSelection e =>
    ls <- gets listeners ;;
    forEach (filter is_selection_listener ls)
            (fun _ => onDidChangeTextEditorSelection h e)
  end.

(** An exception that escapes a handler is caught by the host; the
    mutations made before it stay. *)
Definition step (s : State) (hev : Host * Event) : State :=
  exec (deliver (fst hev) (snd hev)) s.

Definition run (evs : list (Host * Event)) (s : State) : State :=
  fold_left step evs s.

(** The states of one extension-host process. *)
Inductive reachable : State -> Prop :=
| reachable_init stored manifest : reachable (initialState stored manifest)
| reachable_step s hev : reachable s -> reachable (step s hev).

(** ** Observations on the trace *)

Definition count (p : Effect -> bool) (l : list Effect) : nat :=
  length (filter p l).

Definition is_construct (e : Effect) : bool :=
  match e with ConstructClientCollection => true | _ => false end.

Definition is_heartbeat (e : Effect) : bool :=
  match e with SetInterval _ _ => true | _ => false end.

(** how many times a client registry was constructed *)
Definition constructions (s : State) : nat := count is_construct (trace s).

(** how many times the heartbeat timer was started *)
Definition heartbeats (s : State) : nat := count is_heartbeat (trace s).

(** ** Weakest preconditions

    [wp m Q E s]: run from [s], the handler [m] either completes normally in
    a state satisfying [Q], or throws in a state satisfying [E]. *)

Definition wp {A} (m : M A) (Q : A -> State -> Prop) (E : Error -> State -> Prop)
    (s : State) : Prop :=
  match m s with
  | (s', Normal a) => Q a s'
  | (s', Throw e) => E e s'
  end.
Arguments wp : simpl never.

Definition never : Error -> State -> Prop := fun _ _ => False.

(** What is left of the live subscriptions [ls] once every element of [l]
    is disposed. *)
Definition dispose_all (l ls : list Disposable) : list Disposable :=
  fold_left (fun acc d => filter (fun e => negb (same_handle d e)) acc) l ls.


(** What one run of [realActivation] changes, and what it leaves alone. *)
Definition activation_of (s s' : State) : Prop :=
  realActivationOccurred s' = true /\
  tempCommands s' = tempCommands s /\
  activatedPreviously s' = activatedPreviously s /\
  workspaceState s' = workspaceState s /\
  rawPackageJson s' = rawPackageJson s /\
  clients s' <> None /\
  ui s' = Some TheUI /\
  constructions s' = S (constructions s) /\
  heartbeats s' = S (heartbeats s) /\
  (forall e, In e (trace s) -> In e (trace s')) /\
  (languageConfigurations s = [] ->
   forall d, In d (listeners s) -> In d (listeners s')) /\
  (forall d id, In d (listeners s') -> d_sub d = SubCommand id ->
   In d (listeners s)).

(** What [onActivationEvent] has done when it reaches its last statement:
    the temporary watchers are disposed and forgotten, and full activation
    has run unless it had run before. *)
Definition watchers_cancelled (s s1 : State) : Prop :=
  tempCommands s1 = [] /\
  realActivationOccurred s1 = true /\
  activatedPreviously s1 = activatedPreviously s /\
  workspaceState s1 = workspaceState s /\
  rawPackageJson s1 = rawPackageJson s /\
  constructions s1 =
    (if realActivationOccurred s then constructions s else S (constructions s)) /\
  heartbeats s1 =
    (if realActivationOccurred s then heartbeats s else S (heartbeats s)) /\
  ((realActivationOccurred s = true -> clients s <> None) -> clients s1 <> None) /\
  ((realActivationOccurred s = true -> ui s = Some TheUI) -> ui s1 = Some TheUI) /\
  (forall d, In d (tempCommands s) -> In (Disposed d) (trace s1)).

(** What holds of the activation variables in every state of a process. *)
Definition gate_invariant (s : State) : Prop :=
  (realActivationOccurred s = false -> tempCommands s = [] ->
   listeners s = [] /\ activatedPreviously s = false) /\
  (realActivationOccurred s = false -> languageConfigurations s = []) /\
  (tempCommands s <> [] -> activatedPreviously s = true) /\
  (realActivationOccurred s = true -> clients s <> None /\ ui s = Some TheUI).

(** [s'] differs from [s] only in subscriptions, handles and trace entries
    that are neither a registry construction nor a timer start. *)
Definition same_gate (s s' : State) : Prop :=
  realActivationOccurred s' = realActivationOccurred s /\
  tempCommands s' = tempCommands s /\
  activatedPreviously s' = activatedPreviously s /\
  workspaceState s' = workspaceState s /\
  languageConfigurations s' = languageConfigurations s /\
  clients s' = clients s /\
  ui s' = ui s /\
  rawPackageJson s' = rawPackageJson s /\
  constructions s' = constructions s /\
  heartbeats s' = heartbeats s.

(** The commands among the live subscriptions [ls] have their identifiers
    in [ids]. *)
Definition only_commands (ids : list string) (ls : list Disposable) : Prop :=
  forall d id, In d ls -> d_sub d = SubCommand id -> In id ids.


(** The URL a redirect response sends the download to. *)
Definition redirect_target (l : Location) : option string :=
  match l with
  | LocationString s => Some s
  | LocationArray (s :: _) => Some s
  | _ => None
  end.

Definition is_client_call (e : Effect) : bool :=
  match e with ClientCall _ _ => true | _ => false end.

(** ** Sample workspaces, for concrete runs *)

Definition slash_join (a b : string) : string := (a ++ "/" ++ b)%string.

Definition project_uri : Uri := mkUri 1 "/home/dev/project" "file:///home/dev/project".

Definition project_folder : WorkspaceFolder := mkWorkspaceFolder project_uri "project".

Definition project_client : Client := mkClient "project" "/home/dev/project".

Definition library_client : Client := mkClient "library" "/home/dev/library".

Definition one_client : ClientCollection :=
  mkClientCollection [("project", project_client)] project_client.

Definition two_clients : ClientCollection :=
  mkClientCollection [("project", project_client); ("library", library_client)]
                     project_client.

Definition sample_manifest : Manifest :=
  mkManifest [JString "Programming Languages"; JString "Debuggers"]
             [("commands", JArray [])].

(** A folder is open, it has no c_cpp_properties.json, and no document is
    open. *)
Definition quiet_host (rejects : bool) : Host :=
  mkHost (Some [project_folder]) (Some []) None (fun _ => false)
         slash_join "linux" one_client (fun cc _ => cc) EmptyString rejects.

(** A multi-root workspace in which the user picks [picked] in the
    workspace picker. *)
Definition multi_root_host (picked : string) : Host :=
  mkHost (Some [project_folder]) (Some []) None (fun _ => false)
         slash_join "linux" two_clients (fun cc _ => cc) picked true.

Definition main_cpp : TextDocument :=
  mkTextDocument (mkUri 10 "/home/dev/project/main.cpp" "file:///home/dev/project/main.cpp")
                 "cpp" "/home/dev/project/main.cpp".

Definition util_cpp : TextDocument :=
  mkTextDocument (mkUri 11 "/home/dev/project/util.cpp" "file:///home/dev/project/util.cpp")
                 "cpp" "/home/dev/project/util.cpp".

Definition caret (l c : nat) : Selection := mkSelection (mkPosition l c) (mkPosition l c).

Definition editor_of (d : TextDocument) : TextEditor :=
  mkTextEditor d (caret 0 0) 1.

(** [focused] is the document of the active editor. *)
Definition editing_host (focused : TextDocument) : Host :=
  mkHost (Some [project_folder]) (Some [main_cpp; util_cpp]) (Some (editor_of focused))
         (fun _ => false) slash_join "linux" one_client
         (fun cc _ => cc) EmptyString true.

(** The state of a process whose first [activate] found nothing to
    activate for. *)
Definition dormant_state : State :=
  step (initialState None sample_manifest) (quiet_host true, EvActivate false).

(** The state of a process that was told an activation event had occurred. *)
Definition active_state (h : Host) : State :=
  step (initialState None sample_manifest) (h, EvActivate true).

(** A release server that answers every request with 200. *)
Definition healthy_network : Network :=
  fun _ => Responds (mkResponse 200 LocationUndefined true).

(** The surroundings of an update check on 64-bit Linux in which the newest
    release is called [latest] and ships the Linux package. *)
Definition linux_env (running latest : string) : UpdateEnv :=
  mkUpdateEnv running healthy_network (fun name => ("/ext/" ++ name)%string)
    (Some [mkRelease latest
             [mkAsset "cpptools-linux.vsix" "https://example.org/cpptools-linux.vsix"]])
    (mkPlatformInformation "linux" "x86_64")
    "/usr/share/code" "/usr/share/code/bin/code.cmd".

(** A manifest without the Snippets category that nevertheless contributes
    snippets of its own. *)
Definition manifest_with_own_snippets : Manifest :=
  mkManifest [JString "Programming Languages"]
             [("snippets", JArray [JObject [("language", JString "cuda");
                                            ("path", JString "./cuda_snippets.json")]])].

(** The GitHub API refuses a request that carries no User-Agent header, and
    redirects the release list to a mirror. *)
Definition strict_api : Network :=
  fun request =>
    match req_headers request with
    | None => Responds (mkResponse 403 LocationUndefined true)
    | Some _ =>
      if String.eqb (req_url request) releases_url
      then Responds (mkResponse 302 (LocationString "https://api.github.com/mirror") true)
      else Responds (mkResponse 200 LocationUndefined true)
    end.


(** * The rest of the module

    The listeners that [realActivation] subscribes, the crash reporter of
    macOS, the display of a header/source switch and [deactivate].  A string
    stands for its sequence of code units, an index or a length is an
    integer. *)

From Stdlib Require Import ZArith.

(** ** JavaScript string primitives on integers *)

(** [s.length] *)
Definition js_length (s : string) : Z := Z.of_nat (String.length s).

(** [s.indexOf(search, from)] for [from >= 0]; [-1] when there is no
    occurrence at or after [from]. *)
Definition js_indexOf (s search : string) (from : Z) : Z :=
  match index (Z.to_nat from) search s with
  | Some i => Z.of_nat i
  | None => (-1)%Z
  end.

(** [s.substr(start, len)]: a negative [start] counts from the end, the
    result is empty when no character is left. *)
Definition js_substr (s : string) (start len : Z) : string :=
  let size := js_length s in
  let intStart := if (start <? 0)%Z then Z.max (size + start) 0 else start in
  let resultLength := Z.min (Z.max len 0) (size - intStart) in
  if (resultLength <=? 0)%Z then EmptyString
  else substring (Z.to_nat intStart) (Z.to_nat resultLength) s.

(** [s.startsWith(p)] *)
Definition js_startsWith (s p : string) : bool := prefix p s.

(** ** The crash reporter *)

(** The text that [handleCrashFileRead] puts under CrashingThreadCallStack. *)
Definition crashingThreadCallStack (data : string) : string :=
  let startCrash := js_indexOf data " Crashed:" 0 in
  let startCrash := if (startCrash <? 0)%Z then 0%Z else startCrash in
  let endCrash := js_indexOf data "Thread " startCrash in
  let endCrash := if (endCrash <? startCrash)%Z then (js_length data - 1)%Z else endCrash in
  let data := js_substr data startCrash (endCrash - startCrash) in
  if (js_length data >? 16384)%Z then (js_substr data 0 16384 ++ "...")%string
  else data.

(** [handleCrashFileRead]; [err] is [err.code] of a failed read.  The
    result is the property bag logged with the telemetry event MacCrash. *)
Definition handleCrashFileRead (err : option string) (data : string)
    : list (string * string) :=
  match err with
  | Some code => [("readFile: err.code", code)]
  | None => [("CrashingThreadCallStack", crashingThreadCallStack data)]
  end.

Definition crashFilePrefix : string := "Microsoft.VSCode.CPP.".

(** The callback that [reportMacCrashes] hands to [fs.watch], as a function
    of [prevCrashFile]: the new value of the variable and the file whose
    read is scheduled, if any. *)
Definition onCrashFolderEvent (prevCrashFile : string) (event filename : string)
    : string * option string :=
  if negb (String.eqb event "rename") then (prevCrashFile, None)
  else if String.eqb filename prevCrashFile then (prevCrashFile, None)
  else if negb (js_startsWith filename crashFilePrefix) then (filename, None)
  else (filename, Some filename).

(** The reads scheduled by a sequence of watcher events, oldest first. *)
Fixpoint crashFolderEvents (prevCrashFile : string) (events : list (string * string))
    : list string :=
  match events with
  | [] => []
  | (event, filename) :: rest =>
    let r := onCrashFolderEvent prevCrashFile event filename in
    match snd r with
    | Some f => f :: crashFolderEvents (fst r) rest
    | None => crashFolderEvents (fst r) rest
    end
  end.

(** A server whose every answer is a redirect to the same place. *)
Definition redirect_loop : Network :=
  fun _ => Responds (mkResponse 302 (LocationString "https://example.org/again") true).

(** ** Listeners that need no further module variable *)

(** [onInterval] *)
Definition onInterval : M unit := activeClient_call "onInterval".

(** [onDidChangeVisibleTextEditors] *)
Definition onDidChangeVisibleTextEditors (editors : list TextEditor) : M unit :=
  cc <- the_clients ;;
  forEach (languageClients cc)
          (fun kc => client_call (snd kc) "onDidChangeVisibleTextEditors").

(** ** Listeners and shutdown, with the remaining module variables *)

(** Calls on the host and on collaborators that the trace of [State] has
    no entry for. *)
Inductive HostCall :=
| ClearInterval (timer : option nat)
| StartUpdateCheck
| DisposeUI
| DisposeClients.

Record Session := mkSession {
  (** the variables of the activation core *)
  core : State;
  (** [let insiderUpdateTimer: NodeJS.Timer] *)
  insiderUpdateTimer : option nat;
  (** [let saveMessageShown: boolean = false] *)
  saveMessageShown : bool;
  (** the calls made so far, oldest first *)
  hostCalls : list HostCall
}.

Definition newSession (s : State) : Session := mkSession s None false [].

Definition set_core (v : State) (x : Session) : Session :=
  mkSession v (insiderUpdateTimer x) (saveMessageShown x) (hostCalls x).

Definition set_saveMessageShown (v : bool) (x : Session) : Session :=
  mkSession (core x) (insiderUpdateTimer x) v (hostCalls x).

Definition set_hostCalls (v : list HostCall) (x : Session) : Session :=
  mkSession (core x) (insiderUpdateTimer x) (saveMessageShown x) v.

(** Handlers over a [Session]. *)
Definition MS (A : Type) : Type := Session -> Session * Completion A.

Definition retS {A} (a : A) : MS A := fun x => (x, Normal a).

Definition bindS {A B} (m : MS A) (k : A -> MS B) : MS B :=
  fun x =>
    match m x with
    | (x', Normal a) => k a x'
    | (x', Throw e) => (x', Throw e)
    end.

(** A handler of the activation core, run on the core of the session. *)
Definition lift {A} (m : M A) : MS A :=
  fun x =>
    match m (core x) with
    | (s', r) => (set_core s' x, r)
    end.

Definition getsS {A} (f : Session -> A) : MS A := fun x => (x, Normal (f x)).

Definition modifyS (f : Session -> Session) : MS unit := fun x => (f x, Normal tt).

Definition host (c : HostCall) : MS unit :=
  modifyS (fun x => set_hostCalls (hostCalls x ++ [c]) x).

Declare Scope session_scope.
Delimit Scope session_scope with session.
Notation "x <- c1 ;; c2" := (bindS c1 (fun x => c2))
  (at level 61, c1 at next level, right associativity) : session_scope.
Notation "c1 ;; c2" := (bindS c1 (fun _ => c2))
  (at level 61, right associativity) : session_scope.

(** JavaScript truthiness of an optional string. *)
Definition truthy (v : option string) : bool :=
  match v with
  | Some s => negb (String.eqb s EmptyString)
  | None => false
  end.

(** [onDidChangeSettings]; [newUpdateChannel] is what the settings tracker
    of the active client reports under the key updateChannel. *)
Definition onDidChangeSettings (newUpdateChannel : option string) : MS unit :=
  (lift (activeClient_settings "getChangedSettings" "updateChannel") ;;
   cc <- lift the_clients ;;
   lift (forEach (languageClients cc)
                 (fun kc => client_call (snd kc) "onDidChangeSettings")) ;;
   if negb (truthy newUpdateChannel) then retS tt
   else if match newUpdateChannel with
           | Some s => String.eqb s "Default"
           | None => false
           end
   then t <- getsS insiderUpdateTimer ;; host (ClearInterval t)
   else host StartUpdateCheck)%session.

Definition quote : string := String (Ascii.ascii_of_nat 34) EmptyString.

Definition formatOnSave_notice : string :=
  (quote ++ "C_Cpp.clang_format_formatOnSave" ++ quote
   ++ " has been removed. Please use " ++ quote ++ "editor.formatOnSave" ++ quote
   ++ " instead.")%string.

(** [onDidSaveTextDocument]; [clangFormatOnSave] is the value of the
    setting for the saved document.  A document object is identified by its
    Uri object. *)
Definition onDidSaveTextDocument (h : Host) (clangFormatOnSave : bool)
    (doc : TextDocument) : MS unit :=
  match activeTextEditor h with
  | None => retS tt
  | Some active =>
    if negb (Nat.eqb (uri_ref (uri doc)) (uri_ref (uri (document active))))
       || (negb (String.eqb (languageId doc) "cpp")
           && negb (String.eqb (languageId doc) "c"))
    then retS tt
    else
      (shown <- getsS saveMessageShown ;;
       if negb shown && clangFormatOnSave then
         modifyS (set_saveMessageShown true) ;;
         lift (info formatOnSave_notice)
       else retS tt)%session
  end.

(** [deactivate] *)
Definition deactivate : MS unit :=
  (lift (console_log "deactivating extension") ;;
   lift (emit (LogLanguageServerEvent "LanguageServerShutdown")) ;;
   t <- lift (gets intervalTimer) ;;
   host (ClearInterval t) ;;
   u <- getsS insiderUpdateTimer ;;
   host (ClearInterval u) ;;
   ds <- lift (gets disposables) ;;
   lift (forEach ds dispose) ;;
   lc <- lift (gets languageConfigurations) ;;
   lift (forEach lc dispose) ;;
   lift the_ui ;;
   host DisposeUI ;;
   lift the_clients ;;
   host DisposeClients)%session.

(** A sequence of save events. *)
Definition saveAll (events : list (Host * bool * TextDocument)) (x : Session) : Session :=
  fold_left
    (fun x ev => fst (onDidSaveTextDocument (fst (fst ev)) (snd (fst ev)) (snd ev) x))
    events x.

Definition is_formatOnSave_notice (e : Effect) : bool :=
  match e with
  | ShowInformationMessage msg => String.eqb msg formatOnSave_notice
  | _ => false
  end.

(** [wpS m Q E x]: the weakest precondition of a handler over a session. *)
Definition wpS {A} (m : MS A) (Q : A -> Session -> Prop) (E : Error -> Session -> Prop)
    (x : Session) : Prop :=
  match m x with
  | (x', Normal a) => Q a x'
  | (x', Throw e) => E e x'
  end.
Arguments wpS : simpl never.

(** How many entries of the categories array are the Snippets category. *)
Definition snippet_entries (m : Manifest) : nat :=
  length (filter (strict_eq_string snippetsCatName) (categories m)).

(** The categories other than Snippets, in order. *)
Definition other_categories (m : Manifest) : list Json :=
  filter (fun cat => negb (strict_eq_string snippetsCatName cat)) (categories m).

(** ** Showing the target of a header/source switch *)

(** [vscode.window.showTextDocument(document, column)]; no column is the
    call with one argument. *)
Inductive ShowCall :=
| ShowTextDocument (doc : TextDocument) (column : option nat).

Definition shows (editor : TextEditor) (doc : TextDocument) : bool :=
  Nat.eqb (uri_ref (uri (document editor))) (uri_ref (uri doc)).

(** The [forEach] over the visible editors, with its [foundEditor] flag. *)
Fixpoint showInVisibleEditors (editors : list TextEditor) (doc : TextDocument)
    (foundEditor : bool) : bool * list ShowCall :=
  match editors with
  | [] => (foundEditor, [])
  | editor :: rest =>
    if shows editor doc && negb foundEditor then
      let r := showInVisibleEditors rest doc true in
      (fst r, ShowTextDocument doc (Some (viewColumn editor)) :: snd r)
    else showInVisibleEditors rest doc foundEditor
  end.

(** The continuation of [onSwitchHeaderSource] once the target document is
    open: the calls of [showTextDocument] it makes. *)
Definition showSwitchTarget (visibleTextEditors : list TextEditor)
    (active : option TextEditor) (doc : TextDocument) : list ShowCall :=
  let r := showInVisibleEditors visibleTextEditors doc false in
  if negb (fst r) then
    match active with
    | Some activeEditor => snd r ++ [ShowTextDocument doc (Some (viewColumn activeEditor))]
    | None => snd r ++ [ShowTextDocument doc None]
    end
  else snd r.

(** ** Before the first activate *)

(** No temporary watcher is pending and no command is registered. *)
Definition nothing_registered (s : State) : Prop :=
  tempCommands s = [] /\ only_commands [] (listeners s).
(** * Reasoning about handlers

    The rules of the weakest-precondition calculus, one per primitive of the
    monad, and the tactics that run a handler symbolically with them. *)

Section Rules.
Context {A B : Type}.
Variable E : Error -> State -> Prop.

Lemma wp_ret (a : A) Q s : Q a s -> wp (ret a) Q E s.
Proof. exact (fun H => H). Qed.

Lemma wp_throw (e : Error) (Q : A -> State -> Prop) s : E e s -> wp (throw e) Q E s.
Proof. exact (fun H => H). Qed.

Lemma wp_gets (f : State -> A) Q s : Q (f s) s -> wp (gets f) Q E s.
Proof. exact (fun H => H). Qed.

Lemma wp_bind (m : M A) (k : A -> M B) Q s :
  wp m (fun a s' => wp (k a) Q E s') E s -> wp (bind m k) Q E s.
Proof.
  unfold wp, bind. destruct (m s) as [s' [a|e]]; exact (fun H => H).
Qed.

End Rules.

Lemma wp_modify E (f : State -> State) Q s : Q tt (f s) -> wp (modify f) Q E s.
Proof. exact (fun H => H). Qed.

Lemma wp_emit E (e : Effect) Q s :
  Q tt (set_trace (trace s ++ [e]) s) -> wp (emit e) Q E s.
Proof. exact (fun H => H). Qed.

Lemma wp_normal {A} (m : M A) Q s :
  wp m Q never s -> exists a, completion m s = Normal a /\ Q a (exec m s).
Proof.
  unfold wp, completion, exec. destruct (m s) as [s' [a|e]]; simpl.
  - intros H. exists a. auto.
  - intros [].
Qed.

Lemma wp_exec {A} (m : M A) (I : State -> Prop) s :
  wp m (fun _ => I) (fun _ => I) s -> I (exec m s).
Proof.
  unfold wp, exec. destruct (m s) as [s' [a|e]]; auto.
Qed.

(** Closed forms of the two loops that occur with a symbolic list. *)
Lemma forEach_dispose l : forall s,
  forEach l dispose s =
  (set_trace (trace s ++ map Disposed l)
     (set_listeners (dispose_all l (listeners s)) s), Normal tt).
Proof.
  induction l as [|d l IH]; intros s.
  - destruct s; unfold set_trace, set_listeners; simpl.
    rewrite app_nil_r. reflexivity.
  - simpl. unfold bind at 1. unfold dispose at 1. unfold bind, modify, emit. simpl.
    rewrite IH. unfold set_trace, set_listeners. simpl.
    rewrite <- app_assoc. reflexivity.
Qed.

Lemma forEach_emit {A} (f : A -> Effect) l : forall s,
  forEach l (fun x => emit (f x)) s = (set_trace (trace s ++ map f l) s, Normal tt).
Proof.
  induction l as [|d l IH]; intros s.
  - destruct s; unfold set_trace; simpl. rewrite app_nil_r. reflexivity.
  - simpl. unfold bind at 1. unfold emit at 1. unfold modify. simpl.
    rewrite IH. unfold set_trace. simpl.
    rewrite <- app_assoc. reflexivity.
Qed.

Lemma wp_forEach_dispose E l Q s :
  Q tt (set_trace (trace s ++ map Disposed l)
          (set_listeners (dispose_all l (listeners s)) s)) ->
  wp (forEach l dispose) Q E s.
Proof. unfold wp. rewrite forEach_dispose. exact (fun H => H). Qed.

Lemma wp_forEach_emit {A} E (f : A -> Effect) l Q s :
  Q tt (set_trace (trace s ++ map f l) s) ->
  wp (forEach l (fun x => emit (f x))) Q E s.
Proof. unfold wp. rewrite forEach_emit. exact (fun H => H). Qed.

(** One step of symbolic execution. *)
Ltac wp_step :=
  cbv beta;
  lazymatch goal with
  | |- wp (bind _ _) _ _ _ => apply wp_bind
  | |- wp (ret _) _ _ _ => apply wp_ret
  | |- wp (throw _) _ _ _ => apply wp_throw
  | |- wp (gets _) _ _ _ => apply wp_gets
  | |- wp (modify _) _ _ _ => apply wp_modify
  | |- wp (emit _) _ _ _ => apply wp_emit
  | |- wp (forEach _ dispose) _ _ _ => apply wp_forEach_dispose
  | |- wp (forEach _ (fun x => emit _)) _ _ _ => apply wp_forEach_emit
  | |- wp (if ?b then _ else _) _ _ _ => destruct b eqn:?
  | |- wp (match ?x with _ => _ end) _ _ _ => destruct x eqn:?
  | |- wp (let _ := _ in _) _ _ _ => cbv zeta
  end.

Ltac wp_unfold :=
  lazymatch goal with
  | |- wp ?m _ _ _ =>
    let hd := lazymatch m with
              | ?f _ _ _ _ _ => f | ?f _ _ _ _ => f
              | ?f _ _ _ => f | ?f _ _ => f | ?f _ => f | ?f => f end in
    unfold hd; cbv beta iota
  end.

Ltac fields :=
  cbn [clients ui activeDocument disposables languageConfigurations intervalTimer
       realActivationOccurred tempCommands activatedPreviously workspaceState
       rawPackageJson listeners nextHandle trace
       set_clients set_ui set_activeDocument set_disposables
       set_languageConfigurations set_intervalTimer set_realActivationOccurred
       set_tempCommands set_activatedPreviously set_workspaceState
       set_rawPackageJson set_listeners set_nextHandle set_trace] in *.

Ltac wp_go := repeat (first [wp_step | wp_unfold]; fields).

Lemma wp_conseq {A} (m : M A) (Q Q' : A -> State -> Prop)
    (E E' : Error -> State -> Prop) s :
  wp m Q E s ->
  (forall a s', Q a s' -> Q' a s') ->
  (forall e s', E e s' -> E' e s') ->
  wp m Q' E' s.
Proof.
  unfold wp. destruct (m s) as [s' [a|e]]; auto.
Qed.

(** A loop whose body keeps [J] keeps [J], however it completes. *)
Lemma wp_forEach_inv {A} (J : State -> Prop) (f : A -> M unit) l :
  (forall x s, J s -> wp (f x) (fun _ => J) (fun _ => J) s) ->
  forall s, J s -> wp (forEach l f) (fun _ => J) (fun _ => J) s.
Proof.
  intros Hbody. induction l as [|x l IH]; intros s HJ.
  - exact HJ.
  - cbn [forEach]. apply wp_bind.
    eapply wp_conseq; [apply Hbody; exact HJ | | auto].
    intros a s' HJ'. apply IH. exact HJ'.
Qed.

(** ** Counting effects *)

Lemma count_app p l l' : count p (l ++ l') = count p l + count p l'.
Proof. unfold count. rewrite filter_app, length_app. reflexivity. Qed.

Lemma count_map_none {A} p (f : A -> Effect) l :
  (forall x, p (f x) = false) -> count p (map f l) = 0.
Proof.
  intros H. unfold count. induction l as [|x l IH]; simpl; [reflexivity|].
  rewrite H. exact IH.
Qed.

Ltac count_norm :=
  unfold constructions, heartbeats in *; fields;
  repeat rewrite count_app in *;
  repeat (rewrite count_map_none in * by (intros; reflexivity));
  cbn [count filter is_construct is_heartbeat length] in *.

(** ** Full activation *)

Lemma dispose_all_incl l : forall ls d, In d (dispose_all l ls) -> In d ls.
Proof.
  unfold dispose_all. induction l as [|x l IH]; intros ls d Hd.
  - exact Hd.
  - cbn [fold_left] in Hd. apply IH in Hd. apply filter_In in Hd. apply Hd.
Qed.

Lemma wp_realActivation h E Q s :
  (forall s', activation_of s s' -> Q tt s') ->
  wp (realActivation h) Q E s.
Proof.
  intros HQ. wp_go.
  all: try discriminate.
  all: apply HQ; unfold activation_of; fields;
    repeat split; try reflexivity; try discriminate;
    try (count_norm; lia).
  all: try (intros e He; repeat (apply in_or_app; left); exact He).
  all: try (intros Hlc d Hd; rewrite Hlc; cbn [dispose_all fold_left];
    repeat (apply in_or_app; left); exact Hd).
  all: intros d id Hd Hsub;
    apply in_app_or in Hd; destruct Hd as [Hd|[Hd|[]]];
      [|subst d; discriminate];
    apply in_app_or in Hd; destruct Hd as [Hd|[Hd|[]]];
      [|subst d; discriminate];
    apply dispose_all_incl in Hd;
    repeat (apply in_app_or in Hd; destruct Hd as [Hd|[Hd|[]]];
      [|subst d; discriminate]);
    exact Hd.
Qed.

Lemma wp_onActivationEvent h E Q s :
  (tempCommands s = [] -> Q tt s) ->
  (tempCommands s <> [] -> forall s1, watchers_cancelled s s1 ->
     if activatedPreviously s
     then Q tt (set_workspaceState (Some true) s1)
     else forall e, E e s1) ->
  wp (onActivationEvent h) Q E s.
Proof.
  intros Hidle Hfire. unfold onActivationEvent.
  wp_step. wp_step. destruct (tempCommands s) as [|d tc] eqn:Htc.
  - cbn [length Nat.eqb]. wp_step. apply Hidle. reflexivity.
  - cbn [length Nat.eqb]. specialize (Hfire ltac:(discriminate)).
    wp_step. wp_step. wp_step. wp_step. wp_step. wp_step. fields. wp_step.
    destruct (realActivationOccurred s) eqn:Hocc; cbn [negb].
    + wp_step. unfold set_Value. wp_step. wp_step. fields.
      match goal with
      | |- wp _ _ _ ?s1 =>
        assert (Hrel : watchers_cancelled s s1)
      end.
      { unfold watchers_cancelled; fields. rewrite Hocc.
        repeat split; try reflexivity; try assumption.
        - count_norm. lia.
        - count_norm. lia.
        - intros H. apply H. reflexivity.
        - intros H. apply H. reflexivity.
        - intros x Hx. apply in_or_app. right.
          apply in_map. rewrite Htc in Hx. exact Hx. }
      specialize (Hfire _ Hrel).
      destruct (activatedPreviously s).
      * wp_step. exact Hfire.
      * wp_step. apply Hfire.
    + apply wp_realActivation. intros s1 Hact.
      unfold activation_of in Hact. fields.
      destruct Hact as (Ho & Ht & Hap & Hws & Hpj & Hcl & Hui & Hc & Hb & Htr & _).
      assert (Hrel : watchers_cancelled s s1).
      { unfold watchers_cancelled. rewrite Hocc.
        repeat split; try assumption.
        - rewrite Hc. count_norm. lia.
        - rewrite Hb. count_norm. lia.
        - intros _. exact Hcl.
        - intros _. exact Hui.
        - intros x Hx. apply Htr. apply in_or_app. right.
          apply in_map. rewrite Htc in Hx. exact Hx. }
      specialize (Hfire _ Hrel).
      unfold set_Value. wp_step. wp_step. rewrite Hap.
      destruct (activatedPreviously s).
      * wp_step. exact Hfire.
      * wp_step. apply Hfire.
Qed.

(** ** The activation invariant *)

Ltac wp_spec :=
  cbv beta;
  lazymatch goal with
  | |- wp (realActivation _) _ _ _ =>
    apply wp_realActivation; intros ? ?
  | |- wp (onActivationEvent _) _ _ ?s =>
    apply wp_onActivationEvent;
    [ intros ?
    | let s1 := fresh "s1" in
      let H := fresh "Hcancelled" in
      intros ? s1 H; destruct (activatedPreviously s) eqn:?; [ | intros ? ] ]
  end.

Ltac wp_auto := repeat (first [wp_spec | wp_step | wp_unfold]; fields).

Ltac inv_solve :=
  unfold gate_invariant, watchers_cancelled, activation_of in *; fields;
  intuition (try congruence; try discriminate).

Lemma handler_preserves c h arg s :
  gate_invariant s ->
  wp (handler c h arg) (fun _ => gate_invariant) (fun _ => gate_invariant) s.
Proof.
  intros HI. destruct c; cbn [handler].
  all: wp_auto.
  all: solve [inv_solve].
Qed.

(** [registerCommand] on a state in which the identifier is not live. *)
Lemma wp_registerCommand_fresh h id E (Q : Disposable -> State -> Prop) s :
  existsb (is_command id) (listeners s) = false ->
  (let d := mkDisposable (nextHandle s) (SubCommand id) in
   Q d (set_trace (trace s ++ [Subscribed d])
          (set_listeners (listeners s ++ [d])
             (set_nextHandle (S (nextHandle s)) s)))) ->
  wp (registerCommand h id) Q E s.
Proof.
  intros Hfresh HQ. unfold registerCommand. wp_step. wp_step. rewrite Hfresh.
  rewrite andb_false_r. wp_go. exact HQ.
Qed.

Lemma same_gate_refl s : same_gate s s.
Proof. unfold same_gate. repeat split. Qed.

Lemma same_gate_trans s1 s2 s3 : same_gate s1 s2 -> same_gate s2 s3 -> same_gate s1 s3.
Proof. unfold same_gate. intuition (try congruence). Qed.

Lemma only_commands_fresh ids ls id :
  only_commands ids ls -> ~ In id ids -> existsb (is_command id) ls = false.
Proof.
  intros Honly Hnew. apply not_true_is_false. intros Hex.
  apply existsb_exists in Hex. destruct Hex as (d & Hd & Hcmd).
  unfold is_command in Hcmd. destruct (d_sub d) eqn:Hsub; try discriminate.
  apply String.eqb_eq in Hcmd. subst id0.
  apply Hnew. apply (Honly d id Hd Hsub).
Qed.

Lemma wp_register_list h E Q : forall l ids s,
  only_commands ids (listeners s) ->
  (forall c, In c l -> ~ In (commandId c) ids) ->
  NoDup (map commandId l) ->
  (forall s', same_gate s s' -> Q tt s') ->
  wp (forEach l (fun c => d <- registerCommand h (commandId c) ;; push_disposable d))
     Q E s.
Proof.
  induction l as [|c l IH]; intros ids s Honly Hnew Hnodup HQ.
  - apply HQ. apply same_gate_refl.
  - cbn [forEach]. apply wp_bind. apply wp_bind.
    apply wp_registerCommand_fresh.
    { apply (only_commands_fresh ids); [exact Honly | apply Hnew; left; reflexivity]. }
    cbv zeta. unfold push_disposable. wp_step. cbv beta.
    inversion Hnodup as [|x xs Hnotin Hnodup']; subst.
    apply (IH (commandId c :: ids)).
    + fields. intros d id Hd Hsub. apply in_app_or in Hd. destruct Hd as [Hd|[Hd|[]]].
      * right. apply (Honly d id Hd Hsub).
      * subst d. cbn [d_sub] in Hsub. injection Hsub as Hsub. left. exact Hsub.
    + intros c' Hc' [Heq|Hin].
      * apply Hnotin. rewrite Heq. apply in_map. exact Hc'.
      * apply (Hnew c'); [right; exact Hc' | exact Hin].
    + exact Hnodup'.
    + intros s' Hsame. apply HQ.
      eapply same_gate_trans; [|exact Hsame].
      unfold same_gate; fields. repeat split; try reflexivity; count_norm; lia.
Qed.

Lemma commandId_NoDup : NoDup (map commandId commandTable).
Proof.
  unfold commandTable. cbn [map commandId].
  repeat (constructor; [cbn [In]; intuition discriminate|]).
  constructor.
Qed.

(** In a process that has registered nothing yet, [registerCommands] goes
    through. *)
Lemma wp_registerCommands_first h E Q s :
  only_commands [] (listeners s) ->
  (forall s', same_gate s s' -> Q tt s') ->
  wp (registerCommands h) Q E s.
Proof.
  intros Hls HQ. unfold registerCommands.
  apply (wp_register_list h E Q commandTable []).
  - exact Hls.
  - intros c _ [].
  - exact commandId_NoDup.
  - exact HQ.
Qed.

(** Whatever is registered already, [registerCommands] leaves the
    activation variables alone, also when the host rejects a duplicate. *)
Lemma wp_registerCommands h s :
  wp (registerCommands h) (fun _ => same_gate s) (fun _ => same_gate s) s.
Proof.
  unfold registerCommands. apply wp_forEach_inv; [|apply same_gate_refl].
  intros c s1 Hsame. unfold registerCommand, push_disposable. wp_go.
  - exact Hsame.
  - eapply same_gate_trans; [exact Hsame|].
    unfold same_gate; fields. repeat split; try reflexivity; count_norm; lia.
Qed.

Ltac wp_upto_register :=
  repeat (lazymatch goal with
          | |- wp (registerCommands _) _ _ _ => fail
          | |- _ => first [wp_spec | wp_step | wp_unfold]
          end; fields).

Ltac snoc_nil :=
  match goal with
  | H : _ ++ [_] = [] |- _ => apply app_eq_nil in H; destruct H; discriminate
  | H : [] = _ ++ [_] |- _ => symmetry in H; apply app_eq_nil in H; destruct H; discriminate
  end.

(** The part of [activate] that follows [registerCommands]. *)
Lemma activate_tail_preserves h (b : bool) s :
  activatedPreviously s = true ->
  (realActivationOccurred s = true -> clients s <> None /\ ui s = Some TheUI) ->
  (realActivationOccurred s = false -> languageConfigurations s = []) ->
  wp (bind
        (bind (subscribe SubDidOpenTextDocument)
           (fun d : Disposable =>
              modify (fun s0 => set_tempCommands (tempCommands s0 ++ [d]) s0)))
        (fun _ : unit =>
           if b then onActivationEvent h
           else if some_folder_has_config h then onActivationEvent h
           else if some_document_is_c_or_cpp h then onActivationEvent h
           else ret tt))
     (fun _ => gate_invariant) (fun _ => gate_invariant) s.
Proof.
  intros Hap Hcl Hlc. wp_auto.
  all: try snoc_nil; try congruence.
  all: try solve [inv_solve].
  all: unfold gate_invariant; fields; repeat split; auto; intros; try snoc_nil.
  all: apply Hcl; assumption.
Qed.

Ltac gate_solve :=
  unfold same_gate, activation_of, watchers_cancelled, gate_invariant in *;
  fields;
  repeat match goal with H : _ /\ _ |- _ => destruct H end;
  repeat match goal with
         | H : ?f ?x = ?f ?y |- _ => is_var x; is_var y; progress (rewrite H in * )
         end;
  intuition (try congruence; try discriminate).

Lemma activate_preserves h b s :
  gate_invariant s ->
  wp (activate h b) (fun _ => gate_invariant) (fun _ => gate_invariant) s.
Proof.
  intros HI. unfold activate. wp_upto_register.
  all: try discriminate.
  - eapply wp_conseq; [apply wp_registerCommands | |].
    + intros a s2 Hsame. cbv beta.
      apply activate_tail_preserves; gate_solve.
    + intros a s2 Hsame. gate_solve.
  - destruct (listeners s) as [|l0 ls] eqn:Hls.
    + apply wp_registerCommands_first; [fields; rewrite Hls; intros d id []|].
      intros s2 Hsame.
      apply activate_tail_preserves; gate_solve.
    + eapply wp_conseq; [apply wp_registerCommands | |].
      * intros a s2 Hsame. cbv beta.
        apply activate_tail_preserves; gate_solve.
      * intros a s2 Hsame. gate_solve.
Qed.

Lemma onDidOpenTextDocument_preserves h d s :
  gate_invariant s ->
  wp (onDidOpenTextDocument h d) (fun _ => gate_invariant) (fun _ => gate_invariant) s.
Proof.
  intros HI. wp_auto. all: gate_solve.
Qed.

Lemma getClients_preserves h s :
  gate_invariant s ->
  wp (getClients h) (fun _ => gate_invariant) (fun _ => gate_invariant) s.
Proof.
  intros HI. wp_auto. all: gate_solve.
Qed.

Lemma getActiveClient_preserves h s :
  gate_invariant s ->
  wp (getActiveClient h) (fun _ => gate_invariant) (fun _ => gate_invariant) s.
Proof.
  intros HI. wp_auto. all: gate_solve.
Qed.

Lemma onDidChangeTextEditorSelection_preserves h e s :
  gate_invariant s ->
  wp (onDidChangeTextEditorSelection h e)
     (fun _ => gate_invariant) (fun _ => gate_invariant) s.
Proof.
  intros HI. wp_auto. all: gate_solve.
Qed.

Lemma deliver_preserves h ev s :
  gate_invariant s ->
  wp (deliver h ev) (fun _ => gate_invariant) (fun _ => gate_invariant) s.
Proof.
  intros HI. destruct ev as [b|d|c arg| | |e]; cbn [deliver].
  - apply activate_preserves. exact HI.
  - wp_step. wp_step. cbv beta.
    apply wp_forEach_inv; [|exact HI].
    intros _ s1 H1. apply onDidOpenTextDocument_preserves. exact H1.
  - wp_step. wp_step. cbv beta.
    destruct (existsb _ _).
    + apply handler_preserves. exact HI.
    + exact HI.
  - wp_step. eapply wp_conseq; [apply getClients_preserves; exact HI | | auto].
    intros a s1 H1. exact H1.
  - wp_step. eapply wp_conseq; [apply getActiveClient_preserves; exact HI | | auto].
    intros a s1 H1. exact H1.
  - wp_step. wp_step. cbv beta.
    apply wp_forEach_inv; [|exact HI].
    intros _ s1 H1. apply onDidChangeTextEditorSelection_preserves. exact H1.
Qed.

Lemma initial_invariant stored manifest : gate_invariant (initialState stored manifest).
Proof.
  unfold gate_invariant, initialState; fields.
  repeat split; try reflexivity; intros; try discriminate; congruence.
Qed.

Lemma reachable_invariant s : reachable s -> gate_invariant s.
Proof.
  induction 1 as [stored manifest | s [h ev] Hreach IH].
  - apply initial_invariant.
  - unfold step. cbn [fst snd]. apply wp_exec. apply deliver_preserves. exact IH.
Qed.

(** * The activation gate *)

(** The eager path of [activate] is the one call of [realActivation] that
    does not test [realActivationOccurred]: with the persisted flag set, a
    registry is constructed also in a process that is fully activated
    already. *)
Lemma activate_fast_path_unguarded h b s :
  workspaceState s = Some true ->
  constructions (exec (activate h b) s) = S (constructions s) /\
  heartbeats (exec (activate h b) s) = S (heartbeats s).
Proof.
  intros Hws. apply wp_exec. unfold activate. wp_upto_register.
  all: rewrite Hws in *; try discriminate.
  eapply wp_conseq; [apply wp_registerCommands | |].
  - intros a s2 Hsame. cbv beta. wp_auto.
    all: try snoc_nil; try congruence.
    all: unfold same_gate, activation_of, watchers_cancelled in *; fields;
      repeat match goal with H : _ /\ _ |- _ => destruct H end.
    all: repeat match goal with
         | H : realActivationOccurred ?x = _ |- _ => rewrite H in *
         end.
    all: count_norm; split; lia.
  - intros a s2 Hsame. cbv beta.
    unfold same_gate, activation_of in *; fields.
    repeat match goal with H : _ /\ _ |- _ => destruct H end.
    count_norm. split; lia.
Qed.

(** The other three callers of [realActivation] test the flag first. *)
Lemma guarded_paths_do_not_reactivate h s :
  realActivationOccurred s = true ->
  constructions (exec (onActivationEvent h) s) = constructions s /\
  constructions (exec (getClients h) s) = constructions s /\
  constructions (exec (getActiveClient h) s) = constructions s.
Proof.
  intros Hocc. repeat split.
  - apply wp_exec. wp_auto.
    all: try reflexivity.
    all: unfold watchers_cancelled in *; rewrite Hocc in *;
      repeat match goal with H : _ /\ _ |- _ => destruct H end;
      count_norm; congruence.
  - apply wp_exec. unfold getClients. wp_step. wp_step. rewrite Hocc.
    cbn [negb]. wp_go. reflexivity.
  - apply wp_exec. unfold getActiveClient. wp_step. wp_step. rewrite Hocc.
    cbn [negb]. wp_go. all: reflexivity.
Qed.

(** C1, at the failing input.  In a fresh workspace the host calls
    [activate(true)] and then [activate(false)]: the first call leaves the
    persisted flag set, the second takes the eager path, and the process has
    constructed two client registries and started two heartbeat timers,
    whether or not the host rejects the second registration of the
    commands. *)
Theorem activate_twice_activates_twice :
  forall rejects : bool,
    let h := quiet_host rejects in
    let s := run [(h, EvActivate true); (h, EvActivate false)]
                 (initialState None sample_manifest) in
    constructions s = 2 /\ heartbeats s = 2 /\ realActivationOccurred s = true.
Proof.
  intros [|]; vm_compute; repeat split.
Qed.

(** The same happens with a single [activate] when another extension has
    asked for the registry first and the previous session left the flag
    set. *)
Example accessor_then_activate_activates_twice :
  let h := quiet_host true in
  let s := run [(h, EvGetClients); (h, EvActivate false)]
               (initialState (Some true) sample_manifest) in
  constructions s = 2 /\ heartbeats s = 2.
Proof.
  vm_compute. split; reflexivity.
Qed.

(** * Command dispatch *)

(** Seventeen of the eighteen handlers go through the activation gate before
    anything else: invoked while a temporary watcher is pending, they leave
    the process fully activated, the watchers forgotten and the persisted
    flag set, however the rest of the handler completes. *)
Lemma guarded_handlers_activate c h arg s :
  c <> AddToIncludePath ->
  activatedPreviously s = true ->
  tempCommands s <> [] ->
  let s' := exec (handler c h arg) s in
  realActivationOccurred s' = true /\ tempCommands s' = [] /\
  workspaceState s' = Some true.
Proof.
  intros Hc Hap Htc s'. subst s'.
  apply (wp_exec (handler c h arg)
           (fun s' => realActivationOccurred s' = true /\ tempCommands s' = [] /\
                      workspaceState s' = Some true)).
  destruct c; try congruence; cbn [handler].
  all: wp_auto.
  all: try congruence.
  all: unfold watchers_cancelled in *; fields;
    repeat match goal with H : _ /\ _ |- _ => destruct H end;
    repeat split; try assumption; try reflexivity.
Qed.

(** [onAddToIncludePath] never touches the activation variables; with a
    folder open and no registry constructed it fails on [clients]. *)
Lemma onAddToIncludePath_never_activates h path s :
  let s' := exec (onAddToIncludePath h path) s in
  realActivationOccurred s' = realActivationOccurred s /\
  tempCommands s' = tempCommands s /\
  workspaceState s' = workspaceState s /\
  constructions s' = constructions s /\
  (isFolderOpen h = true -> clients s = None ->
   completion (onAddToIncludePath h path) s = Throw (TypeError "clients is undefined")).
Proof.
  cbv zeta. unfold exec, completion, onAddToIncludePath, info, activeClient_call,
    clients_ActiveClient, the_clients, client_call, emit, bind, gets, modify, ret, throw.
  destruct (isFolderOpen h); cbn [negb].
  - destruct (clients s) eqn:Hcl; cbn [fst snd]; fields.
    + repeat split; try reflexivity.
      * count_norm. lia.
      * intros _ Hnone. discriminate.
    + repeat split; reflexivity.
  - cbn [fst snd]; fields. repeat split; try reflexivity.
    + count_norm. lia.
    + intros Hf. discriminate.
Qed.

(** C2, at the failing input.  The process is dormant (a folder is open,
    nothing activated it yet) and the command C_Cpp.AddToIncludePath is
    invoked: the handler does not go through the activation gate, so nothing
    is activated and the handler throws on the undefined registry.  The same
    invocation of C_Cpp.Navigate activates the process first. *)
Theorem addToIncludePath_skips_activation_guard :
  let h := quiet_host true in
  let s := dormant_state in
  tempCommands s <> [] /\
  existsb (is_command (commandId AddToIncludePath)) (listeners s) = true /\
  completion (handler AddToIncludePath h "/usr/include") s
    = Throw (TypeError "clients is undefined") /\
  step s (h, EvCommand AddToIncludePath "/usr/include") = s /\
  realActivationOccurred (step s (h, EvCommand AddToIncludePath "/usr/include")) = false /\
  realActivationOccurred (step s (h, EvCommand Navigate EmptyString)) = true.
Proof.
  vm_compute. repeat split. discriminate.
Qed.

(** * The persisted flag *)

(** C3 as stated fails on the persisted fast path.  The previous session
    left the flag set; this session's [activate(false)] finds no marker and
    no c/cpp document: full activation has run, and the flag is [false] at
    the end. *)
Lemma fast_path_leaves_flag_cleared :
  let s := exec (activate (quiet_host true) false)
                (initialState (Some true) sample_manifest) in
  realActivationOccurred s = true /\ constructions s = 1 /\
  workspaceState s = Some false /\ workspaceState s <> Some true.
Proof.
  vm_compute. repeat split. discriminate.
Qed.

(** C3, amended.  Every run of [onActivationEvent] that finds a pending
    temporary watcher (the route of an activation event that had occurred
    already, of the workspace and document scans, of the temporary watcher
    and of the commands) completes normally with full activation done, the
    watchers forgotten and the persisted flag [true]. *)
Theorem onActivationEvent_sets_persisted_flag h s :
  activatedPreviously s = true ->
  tempCommands s <> [] ->
  let s' := exec (onActivationEvent h) s in
  completion (onActivationEvent h) s = Normal tt /\
  realActivationOccurred s' = true /\
  tempCommands s' = [] /\
  workspaceState s' = Some true /\
  (forall d, is_c_or_cpp (languageId d) = true ->
     exec (onDidOpenTextDocument h d) s = s').
Proof.
  intros Hap Htc s'.
  assert (Hwp : wp (onActivationEvent h)
                  (fun _ s1 => realActivationOccurred s1 = true /\ tempCommands s1 = [] /\
                               workspaceState s1 = Some true) never s).
  { wp_auto; try congruence.
    unfold watchers_cancelled in *; fields.
    repeat match goal with H : _ /\ _ |- _ => destruct H end.
    repeat split; assumption. }
  apply wp_normal in Hwp. destruct Hwp as ([] & Hnormal & Hocc & Htemp & Hws).
  repeat split; try assumption.
  intros d Hd. unfold onDidOpenTextDocument, is_c_or_cpp in *.
  rewrite orb_comm in Hd. rewrite Hd. reflexivity.
Qed.

Lemma onActivationEvent_sets_persisted_flag_witness :
  workspaceState (exec (onActivationEvent (quiet_host true)) dormant_state) = Some true.
Proof.
  apply (onActivationEvent_sets_persisted_flag (quiet_host true) dormant_state).
  - vm_compute. reflexivity.
  - vm_compute. discriminate.
Defined.

(** [activate] on the module as it is loaded, before any other entry point
    has run, always returns; it ends fully activated with the flag set when
    an activation event is stated by the caller or found by the scans;
    otherwise its watcher stays pending, and the flag is cleared if it was
    set. *)
Lemma first_activate h (b : bool) stored manifest :
  let s' := exec (activate h b) (initialState stored manifest) in
  let was_set := match stored with Some v => v | None => false end in
  completion (activate h b) (initialState stored manifest) = Normal tt /\
  if b || some_folder_has_config h || some_document_is_c_or_cpp h
  then tempCommands s' = [] /\ realActivationOccurred s' = true /\
       workspaceState s' = Some true
  else tempCommands s' <> [] /\ realActivationOccurred s' = was_set /\
       workspaceState s' = (if was_set then Some false else stored).
Proof.
  intros s' was_set.
  assert (Hwp : wp (activate h b)
    (fun _ s' =>
      if b || some_folder_has_config h || some_document_is_c_or_cpp h
      then tempCommands s' = [] /\ realActivationOccurred s' = true /\
           workspaceState s' = Some true
      else tempCommands s' <> [] /\ realActivationOccurred s' = was_set /\
           workspaceState s' = (if was_set then Some false else stored))
    never (initialState stored manifest)).
  { unfold activate. wp_upto_register.
    all: try discriminate.
    all: apply wp_registerCommands_first;
      [ unfold activation_of in *; fields;
        repeat match goal with H : _ /\ _ |- _ => destruct H end;
        intros d id Hd Hsub;
        try match goal with
            | H : forall d id, In d (listeners _) -> _ |- _ =>
              apply (H d id Hd Hsub)
            end;
        try exact Hd
      | intros s2 Hsame; wp_auto ].
    all: try snoc_nil; try congruence.
    all: unfold watchers_cancelled, same_gate, activation_of in *; fields;
      repeat match goal with H : _ /\ _ |- _ => destruct H end.
    all: try (exfalso; congruence).
    all: subst was_set; unfold initialState in *; fields.
    all: repeat match goal with
         | H : _ = true |- _ => rewrite H in *
         | H : _ = false |- _ => rewrite H in *
         end; cbn [orb] in *.
    all: repeat split; try congruence; try (intro; snoc_nil). }
  apply wp_normal in Hwp. destruct Hwp as ([] & Hnormal & Hpost).
  split; [exact Hnormal | exact Hpost].
Qed.

(** * Pending watchers and full activation *)

(** C4 as stated fails: after the persisted fast path the process is fully
    activated while the watcher that [activate] registered is still
    pending. *)
Lemma watcher_pending_while_activated :
  ~ (forall s, reachable s ->
       (tempCommands s = [] <-> realActivationOccurred s = true)).
Proof.
  intros Hiff.
  specialize (Hiff (step (initialState (Some true) sample_manifest)
                         (quiet_host true, EvActivate false))
                   (reachable_step _ _ (reachable_init _ _))).
  destruct Hiff as [_ Hback].
  assert (Hempty : tempCommands (step (initialState (Some true) sample_manifest)
                                      (quiet_host true, EvActivate false)) = []).
  { apply Hback. vm_compute. reflexivity. }
  vm_compute in Hempty. discriminate.
Qed.

(** C4, amended.  In every state a process can reach once [activate] has
    been called, no pending temporary watcher means that full activation
    has occurred. *)
Theorem no_pending_watcher_implies_activated s :
  reachable s ->
  activatedPreviously s = true ->
  tempCommands s = [] ->
  realActivationOccurred s = true.
Proof.
  intros Hreach Hap Htc.
  destruct (reachable_invariant s Hreach) as (Hpre & _).
  destruct (realActivationOccurred s) eqn:Hocc; [reflexivity|].
  destruct (Hpre eq_refl Htc) as [_ Hundef]. congruence.
Qed.

Lemma no_pending_watcher_implies_activated_witness :
  realActivationOccurred (active_state (quiet_host true)) = true.
Proof.
  apply (no_pending_watcher_implies_activated (active_state (quiet_host true))).
  - unfold active_state. apply reachable_step. apply reachable_init.
  - vm_compute. reflexivity.
  - vm_compute. reflexivity.
Defined.

(** * The exported accessors *)

Lemma wp_getClients h s :
  realActivationOccurred s = false ->
  wp (getClients h) (fun r s' => r <> None /\ activation_of s s') never s.
Proof.
  intros Hocc. unfold getClients. wp_step. wp_step. rewrite Hocc. cbn [negb].
  wp_step. wp_spec. wp_step. split; [|assumption].
  match goal with H : activation_of _ _ |- _ => apply H end.
Qed.

Lemma wp_getActiveClient h s :
  realActivationOccurred s = false ->
  wp (getActiveClient h) (fun _ s' => activation_of s s') never s.
Proof.
  intros Hocc. unfold getActiveClient. wp_step. wp_step. rewrite Hocc. cbn [negb].
  wp_step. wp_spec. unfold clients_ActiveClient, the_clients.
  wp_step. wp_step. wp_step.
  match goal with H : activation_of _ _ |- _ => pose proof H as Hrel end.
  destruct Hrel as (_ & _ & _ & _ & _ & Hcl & _).
  destruct (clients s') as [cc|] eqn:Hcc; [|congruence].
  wp_step. wp_step. assumption.
Qed.

Lemma wp_onActivationEvent_pending h s :
  activatedPreviously s = true ->
  tempCommands s <> [] ->
  wp (onActivationEvent h)
     (fun _ s1 => realActivationOccurred s1 = true /\ tempCommands s1 = [] /\
        (forall d, In d (tempCommands s) -> In (Disposed d) (trace s1)) /\
        workspaceState s1 = Some true) never s.
Proof.
  intros Hap Htc. wp_auto; try congruence.
  unfold watchers_cancelled in *; fields.
  repeat match goal with H : _ /\ _ |- _ => destruct H end.
  repeat split; assumption.
Qed.

(** C9.  Called before full activation, [getClients] and [getActiveClient]
    run full activation and hand out the registry, and they leave the
    pending watchers, their subscriptions and the persisted flag as they
    were; [onActivationEvent] in the same state forgets the watchers, disposes
    them and sets the flag. *)
Theorem accessors_activate_without_cleanup h s :
  reachable s ->
  realActivationOccurred s = false ->
  (exists cc, completion (getClients h) s = Normal (Some cc)) /\
  (exists c, completion (getActiveClient h) s = Normal c) /\
  (forall s', s' = exec (getClients h) s \/ s' = exec (getActiveClient h) s ->
     realActivationOccurred s' = true /\
     constructions s' = S (constructions s) /\
     heartbeats s' = S (heartbeats s) /\
     tempCommands s' = tempCommands s /\
     (forall d, In d (listeners s) -> In d (listeners s')) /\
     workspaceState s' = workspaceState s) /\
  (tempCommands s <> [] ->
     let s' := exec (onActivationEvent h) s in
     realActivationOccurred s' = true /\
     tempCommands s' = [] /\
     (forall d, In d (tempCommands s) -> In (Disposed d) (trace s')) /\
     workspaceState s' = Some true).
Proof.
  intros Hreach Hocc.
  destruct (reachable_invariant s Hreach) as (Hpre & Hlc & Hdef & _).
  specialize (Hlc Hocc).
  destruct (wp_normal _ _ _ (wp_getClients h s Hocc)) as (r & Hr & Hsome & Hrel1).
  destruct (wp_normal _ _ _ (wp_getActiveClient h s Hocc)) as (c & Hc & Hrel2).
  split; [|split; [|split]].
  - destruct r as [cc|]; [exists cc; exact Hr | congruence].
  - exists c. exact Hc.
  - intros s' [->| ->].
    + destruct Hrel1 as (H1 & H2 & H3 & H4 & H5 & H6 & H7 & H8 & H9 & H10 & H11 & H12).
      repeat split; try assumption. apply H11. exact Hlc.
    + destruct Hrel2 as (H1 & H2 & H3 & H4 & H5 & H6 & H7 & H8 & H9 & H10 & H11 & H12).
      repeat split; try assumption. apply H11. exact Hlc.
  - intros Htc s'. specialize (Hdef Htc).
    destruct (wp_normal _ _ _ (wp_onActivationEvent_pending h s Hdef Htc))
      as ([] & _ & Hpost).
    exact Hpost.
Qed.

Lemma accessors_activate_without_cleanup_witness :
  exists cc, completion (getClients (quiet_host true)) dormant_state = Normal (Some cc).
Proof.
  assert (Hreach : reachable dormant_state).
  { unfold dormant_state. apply reachable_step. apply reachable_init. }
  assert (Hocc : realActivationOccurred dormant_state = false).
  { vm_compute. reflexivity. }
  exact (proj1 (accessors_activate_without_cleanup (quiet_host true) dormant_state
                  Hreach Hocc)).
Defined.

(** * Client selection *)

Lemma onActivationEvent_idle h s :
  tempCommands s = [] -> onActivationEvent h s = (s, Normal tt).
Proof.
  intros Htc. unfold onActivationEvent, bind, gets. rewrite Htc. reflexivity.
Qed.

(** C5.  With one registered client [selectClient] resolves to the active
    client and the picker is not shown (the state, trace included, is
    untouched).  With two or more it shows the picker once; a non-empty key
    that names a registered client resolves to that client; an empty or
    unknown key is a rejection, which [onResetDatabase] swallows without any
    call on a client. *)
Theorem selectClient_resolution h s cc u :
  clients s = Some cc ->
  ui s = Some u ->
  let asked := set_trace (trace s ++ [UiShowWorkspaces (Names cc)]) s in
  (Count cc = 1 ->
     selectClient h s = (s, Normal (Resolved (ActiveClient cc)))) /\
  (2 <= Count cc ->
     (forall client,
        pickedWorkspace h <> EmptyString ->
        cc_get cc (pickedWorkspace h) = Some client ->
        selectClient h s = (asked, Normal (Resolved client))) /\
     (pickedWorkspace h = EmptyString \/ cc_get cc (pickedWorkspace h) = None ->
        selectClient h s = (asked, Normal (Rejected "client not found")) /\
        (tempCommands s = [] ->
           onResetDatabase h s = (asked, Normal tt) /\
           count is_client_call (trace asked) = count is_client_call (trace s)))).
Proof.
  intros Hcl Hui asked. split.
  - intros Hone. unfold selectClient, clients_ActiveClient, the_clients, bind, gets, ret.
    rewrite Hcl. rewrite Hone. cbn [Nat.eqb]. rewrite Hcl. reflexivity.
  - intros Hmany.
    assert (Hneq : Nat.eqb (Count cc) 1 = false).
    { apply Nat.eqb_neq. lia. }
    assert (Hsel : selectClient h s =
              (asked,
               Normal (if negb (String.eqb (pickedWorkspace h) EmptyString)
                       then match cc_get cc (pickedWorkspace h) with
                            | Some client => Resolved client
                            | None => Rejected "client not found"
                            end
                       else Rejected "client not found"))).
    { unfold selectClient, ui_showWorkspaces, the_clients, the_ui, emit, bind, gets,
        modify, ret.
      rewrite Hcl, Hneq, Hui. fold asked.
      destruct (negb (String.eqb (pickedWorkspace h) EmptyString)); [|reflexivity].
      replace (clients asked) with (Some cc) by (symmetry; exact Hcl).
      destruct (cc_get cc (pickedWorkspace h)); reflexivity. }
    split.
    + intros client Hkey Hget. rewrite Hsel.
      apply String.eqb_neq in Hkey. rewrite Hkey. cbn [negb]. rewrite Hget. reflexivity.
    + intros Hbad.
      assert (Hrej : selectClient h s = (asked, Normal (Rejected "client not found"))).
      { rewrite Hsel. destruct Hbad as [Hempty | Hunknown].
        - rewrite Hempty. reflexivity.
        - rewrite Hunknown. destruct (negb _); reflexivity. }
      split; [exact Hrej|].
      intros Htc. split.
      * unfold onResetDatabase, bind. rewrite (onActivationEvent_idle h s Htc).
        rewrite Hrej. reflexivity.
      * subst asked. fields. rewrite count_app. cbn. lia.
Qed.

Lemma selectClient_resolution_witness :
  selectClient (multi_root_host "library") (active_state (multi_root_host "library"))
  = (set_trace (trace (active_state (multi_root_host "library"))
                ++ [UiShowWorkspaces (Names two_clients)])
               (active_state (multi_root_host "library")),
     Normal (Resolved library_client)).
Proof.
  assert (Hcl : clients (active_state (multi_root_host "library")) = Some two_clients).
  { vm_compute. reflexivity. }
  assert (Hui : ui (active_state (multi_root_host "library")) = Some TheUI).
  { vm_compute. reflexivity. }
  assert (Hmany : 2 <= Count two_clients).
  { vm_compute. apply le_n. }
  assert (Hkey : pickedWorkspace (multi_root_host "library") <> EmptyString).
  { vm_compute. discriminate. }
  assert (Hget : cc_get two_clients (pickedWorkspace (multi_root_host "library"))
                 = Some library_client).
  { vm_compute. reflexivity. }
  exact (proj1 (proj2 (selectClient_resolution (multi_root_host "library")
                         (active_state (multi_root_host "library")) two_clients TheUI
                         Hcl Hui) Hmany) library_client Hkey Hget).
Defined.

(** * The selection-changed listener *)

(** C6 as stated fails: the listener drops the event unless its editor's
    document is the active editor's.  The tracker holds main.cpp, the active
    editor shows main.cpp, and a selection event arrives for util.cpp (a cpp
    document, a URI other than the tracker's): nothing is updated and
    nothing is forwarded. *)
Lemma selection_of_inactive_editor_is_dropped :
  let h := editing_host main_cpp in
  let s := active_state h in
  let event := mkSelectionChangeEvent (Some (editor_of util_cpp)) [caret 3 7] in
  is_c_or_cpp (languageId util_cpp) = true /\
  differs (activeDocument s) (uri_toString (uri util_cpp)) = true /\
  onDidChangeTextEditorSelection h event s = (s, Normal tt).
Proof.
  vm_compute. repeat split.
Qed.

(** C6, amended.  A selection event is dropped, with nothing changed, when
    it has no editor, when the window has no active editor, when its
    editor's document is not the active editor's document (the comparison
    is of the documents' Uri objects, so a second editor on the active
    document passes), or when the document is neither c nor cpp.  For every
    other event that carries a selection: when the tracker differs from the
    document's URI the listener sets the tracker, tells the clients about
    the document, tells the UI, and then forwards the position to the
    client that is active after the document change; when the tracker
    agrees it forwards the position and does nothing else. *)
Theorem selection_changed_tie_break h event s :
  (match textEditor event, activeTextEditor h with
   | Some ed, Some active =>
     uri_ref (uri (document ed)) <> uri_ref (uri (document active)) \/
     is_c_or_cpp (languageId (document ed)) = false
   | _, _ => True
   end ->
   onDidChangeTextEditorSelection h event s = (s, Normal tt)) /\
  (forall ed active cc u sel rest,
   textEditor event = Some ed ->
   activeTextEditor h = Some active ->
   uri_ref (uri (document ed)) = uri_ref (uri (document active)) ->
   is_c_or_cpp (languageId (document ed)) = true ->
   selections event = sel :: rest ->
   clients s = Some cc ->
   ui s = Some u ->
   let doc := document ed in
   let target := uri_toString (uri doc) in
   let s' := exec (onDidChangeTextEditorSelection h event) s in
   completion (onDidChangeTextEditorSelection h event) s = Normal tt /\
   activeDocument s' = Some target /\
   if differs (activeDocument s) target
   then clients s' = Some (activeDocumentChanged h cc doc) /\
        trace s' = trace s ++
          [ ClientsActiveDocumentChanged doc;
            UiActiveDocumentChanged;
            ClientSelectionChanged (ActiveClient (activeDocumentChanged h cc doc))
                                   (sel_start sel) ]
   else clients s' = Some cc /\
        trace s' = trace s ++ [ClientSelectionChanged (ActiveClient cc) (sel_start sel)]).
Proof.
  split.
  - unfold onDidChangeTextEditorSelection.
    destruct (textEditor event) as [ed|]; [|reflexivity].
    destruct (activeTextEditor h) as [active|]; [|reflexivity].
    intros [Hother | Hlang].
    + apply Nat.eqb_neq in Hother. rewrite Hother. reflexivity.
    + unfold is_c_or_cpp in Hlang. apply orb_false_iff in Hlang.
      destruct Hlang as [Hcpp Hc]. rewrite Hcpp, Hc.
      rewrite orb_true_r. reflexivity.
  - intros ed active cc u sel rest Hed Hactive Hsame Hlang Hsel Hcl Hui doc target s'.
    assert (Hguard :
      negb (Nat.eqb (uri_ref (uri (document ed))) (uri_ref (uri (document active))))
      || (negb (String.eqb (languageId (document ed)) "cpp")
          && negb (String.eqb (languageId (document ed)) "c")) = false).
    { rewrite Hsame, Nat.eqb_refl. cbn [negb orb].
      unfold is_c_or_cpp in Hlang.
      destruct (String.eqb (languageId (document ed)) "cpp"); [reflexivity|].
      cbn [orb] in Hlang. rewrite Hlang. reflexivity. }
    subst s'. unfold exec, completion, onDidChangeTextEditorSelection.
    rewrite Hed, Hactive, Hguard. fold doc. fold target.
    unfold clients_activeDocumentChanged, ui_activeDocumentChanged, clients_ActiveClient,
      the_clients, the_ui, emit, bind, gets, modify, ret.
    destruct (differs (activeDocument s) target) eqn:Hdiff; fields.
    + repeat first [rewrite Hcl | rewrite Hui | rewrite Hsel
                    | progress fields | progress cbn [fst snd]].
      repeat split. rewrite <- !app_assoc. reflexivity.
    + repeat first [rewrite Hcl | rewrite Hui | rewrite Hsel
                    | progress fields | progress cbn [fst snd]].
      repeat split.
      unfold differs in Hdiff. destruct (activeDocument s) as [t|]; [|discriminate].
      apply negb_false_iff in Hdiff. apply String.eqb_eq in Hdiff. congruence.
Qed.

(** The tie-break itself; a second editor (column 2) on the active document,
    whose cursor is forwarded; and an editor on another document, whose
    event is dropped. *)
Lemma selection_changed_tie_break_witness :
  let s := active_state (editing_host main_cpp) in
  (let h := editing_host util_cpp in
   let event := mkSelectionChangeEvent (Some (editor_of util_cpp)) [caret 3 7] in
   trace (exec (onDidChangeTextEditorSelection h event) s) =
   trace s ++ [ ClientsActiveDocumentChanged util_cpp;
                UiActiveDocumentChanged;
                ClientSelectionChanged project_client (mkPosition 3 7) ]) /\
  (let h := editing_host main_cpp in
   let split_view := mkTextEditor main_cpp (caret 0 0) 2 in
   let event := mkSelectionChangeEvent (Some split_view) [caret 5 1] in
   trace (exec (onDidChangeTextEditorSelection h event) s) =
   trace s ++ [ClientSelectionChanged project_client (mkPosition 5 1)]) /\
  (let h := editing_host main_cpp in
   let event := mkSelectionChangeEvent (Some (editor_of util_cpp)) [caret 3 7] in
   onDidChangeTextEditorSelection h event s = (s, Normal tt)).
Proof.
  intros s.
  assert (Hcl : clients s = Some one_client).
  { vm_compute. reflexivity. }
  assert (Hui : ui s = Some TheUI).
  { vm_compute. reflexivity. }
  split; [|split].
  - intros h event.
    assert (Hed : textEditor event = Some (editor_of util_cpp)) by reflexivity.
    assert (Hactive : activeTextEditor h = Some (editor_of util_cpp)) by reflexivity.
    assert (Hsame : uri_ref (uri (document (editor_of util_cpp)))
                    = uri_ref (uri (document (editor_of util_cpp)))) by reflexivity.
    assert (Hlang : is_c_or_cpp (languageId (document (editor_of util_cpp))) = true).
    { vm_compute. reflexivity. }
    assert (Hsel : selections event = caret 3 7 :: []) by reflexivity.
    pose proof (proj2 (selection_changed_tie_break h event s) (editor_of util_cpp)
                  (editor_of util_cpp) one_client TheUI (caret 3 7) []
                  Hed Hactive Hsame Hlang Hsel Hcl Hui) as Hspec.
    cbv zeta in Hspec. destruct Hspec as (_ & _ & Hbranch).
    assert (Hdiff : differs (activeDocument s)
                      (uri_toString (uri (document (editor_of util_cpp)))) = true).
    { vm_compute. reflexivity. }
    rewrite Hdiff in Hbranch. destruct Hbranch as [_ Htrace]. exact Htrace.
  - intros h split_view event.
    assert (Hed : textEditor event = Some split_view) by reflexivity.
    assert (Hactive : activeTextEditor h = Some (editor_of main_cpp)) by reflexivity.
    assert (Hsame : uri_ref (uri (document split_view))
                    = uri_ref (uri (document (editor_of main_cpp)))) by reflexivity.
    assert (Hlang : is_c_or_cpp (languageId (document split_view)) = true).
    { vm_compute. reflexivity. }
    assert (Hsel : selections event = caret 5 1 :: []) by reflexivity.
    pose proof (proj2 (selection_changed_tie_break h event s) split_view
                  (editor_of main_cpp) one_client TheUI (caret 5 1) []
                  Hed Hactive Hsame Hlang Hsel Hcl Hui) as Hspec.
    cbv zeta in Hspec. destruct Hspec as (_ & _ & Hbranch).
    assert (Hdiff : differs (activeDocument s)
                      (uri_toString (uri (document split_view))) = false).
    { vm_compute. reflexivity. }
    rewrite Hdiff in Hbranch. destruct Hbranch as [_ Htrace]. exact Htrace.
  - intros h event.
    apply (proj1 (selection_changed_tie_break h event s)).
    left. vm_compute. discriminate.
Defined.

(** * The self-update version gate *)

Lemma ascii_compare_nat x y :
  Ascii.compare x y = Nat.compare (nat_of_ascii x) (nat_of_ascii y).
Proof.
  unfold Ascii.compare, nat_of_ascii. apply Nnat.N2Nat.inj_compare.
Qed.

(** [js_lt] is the strict lexicographic order of the standard library. *)
Lemma js_lt_compare a : forall b,
  js_lt a b = match String.compare a b with Lt => true | _ => false end.
Proof.
  induction a as [|x a IH]; intros [|y b]; cbn [js_lt String.compare]; try reflexivity.
  rewrite ascii_compare_nat.
  destruct (Nat.compare_spec (nat_of_ascii x) (nat_of_ascii y)) as [Heq|Hlt|Hgt].
  - rewrite Heq, Nat.ltb_irrefl. apply IH.
  - apply Nat.ltb_lt in Hlt. rewrite Hlt. reflexivity.
  - assert (Hnlt : Nat.ltb (nat_of_ascii x) (nat_of_ascii y) = false).
    { apply Nat.ltb_ge. lia. }
    apply Nat.ltb_lt in Hgt. rewrite Hnlt, Hgt. reflexivity.
Qed.

(** [a >= b] holds exactly when [b] is lexicographically at most [a]. *)
Lemma js_ge_leb a b : js_ge a b = String.leb b a.
Proof.
  unfold js_ge, String.leb. rewrite js_lt_compare.
  rewrite (String.compare_antisym a b).
  destruct (String.compare b a); reflexivity.
Qed.

Lemma applyUpdate_past_gate env fuel latestBuild :
  applyUpdate env fuel latestBuild <> UpToDate.
Proof.
  unfold applyUpdate.
  destruct (vsixNameFor (platformInfo env)) as [vsixName|]; [|discriminate].
  destruct (is_empty vsixName); [discriminate|].
  destruct (find _ _) as [asset|]; [|discriminate].
  destruct (is_empty (browser_download_url asset)); [discriminate|].
  destruct (snd _); try discriminate.
  destruct (is_empty (vsCodeCommandFileFor env)); discriminate.
Qed.

(** C7.  Once the running version is known and the release list has been
    fetched and has a first entry, the check returns at the version gate
    exactly when the entry's name is lexicographically at most the running
    version (character by character, not by numeric components); otherwise
    it goes on to resolve and install the package. *)
Theorem version_gate env fuel version latestBuild others :
  currentVersion (packageVersion env) = Some version ->
  version <> EmptyString ->
  snd (downloadFileToDestination (network env) fuel releases_url
         (getExtensionFilePath env "releases.json")
         (Some [("User-Agent", "vscode-cpptools")])) = DownloadResolved ->
  parsedReleases env = Some (latestBuild :: others) ->
  (checkAndApplyUpdate env fuel = UpToDate <->
   String.leb (release_name latestBuild) version = true) /\
  (String.leb (release_name latestBuild) version = false ->
   checkAndApplyUpdate env fuel = applyUpdate env fuel latestBuild).
Proof.
  intros Hver Hnonempty Hdl Hparsed.
  unfold checkAndApplyUpdate. rewrite Hver.
  assert (Hne : is_empty version = false).
  { unfold is_empty. apply String.eqb_neq. exact Hnonempty. }
  rewrite Hne, Hdl, Hparsed, js_ge_leb.
  destruct (String.leb (release_name latestBuild) version).
  - split; [split; reflexivity | discriminate].
  - split; [|reflexivity]. split; [|discriminate].
    intros Habs. exfalso. exact (applyUpdate_past_gate _ _ _ Habs).
Qed.

(** The two runs of the specification: 1.2.0 against 1.3.0 installs,
    1.3.0 against 1.3.0 returns at the gate. *)
Lemma version_gate_witness :
  checkAndApplyUpdate (linux_env "1.3.0" "1.3.0") 3 = UpToDate /\
  checkAndApplyUpdate (linux_env "1.2.0" "1.3.0") 3
  = Installed "/usr/share/code --install-extension /ext/cpptools-linux.vsix".
Proof.
  split.
  - apply (proj1 (version_gate (linux_env "1.3.0" "1.3.0") 3 "1.3.0"
                    (mkRelease "1.3.0"
                       [mkAsset "cpptools-linux.vsix"
                                "https://example.org/cpptools-linux.vsix"]) []
                    eq_refl ltac:(discriminate) eq_refl eq_refl)).
    vm_compute. reflexivity.
  - rewrite (proj2 (version_gate (linux_env "1.2.0" "1.3.0") 3 "1.2.0"
                    (mkRelease "1.3.0"
                       [mkAsset "cpptools-linux.vsix"
                                "https://example.org/cpptools-linux.vsix"]) []
                    eq_refl ltac:(discriminate) eq_refl eq_refl)).
    + vm_compute. reflexivity.
    + vm_compute. reflexivity.
Defined.

(** The order is by characters: 1.10.0 counts as older than 1.9.0. *)
Example version_gate_is_not_numeric :
  checkAndApplyUpdate (linux_env "1.9.0" "1.10.0") 3 = UpToDate /\
  currentVersion "1.2.0-insiders" = Some "1.2.0" /\
  currentVersion "1.2.0-master" = None.
Proof.
  vm_compute. repeat split.
Qed.

(** * The snippets toggle *)

Lemma findIndex_none {A} (p : A -> bool) l :
  findIndex p l = None <-> forall x, In x l -> p x = false.
Proof.
  induction l as [|y l IH]; cbn [findIndex].
  - split; [intros _ x [] | reflexivity].
  - destruct (p y) eqn:Hy.
    + split; [discriminate|]. intros H. rewrite (H y (or_introl eq_refl)) in Hy.
      discriminate.
    + destruct (findIndex p l) as [i|].
      * split; [discriminate|]. intros H.
        assert (Hc : Some i = None).
        { apply IH. intros x Hx. apply H. right. exact Hx. }
        discriminate.
      * split; [|reflexivity]. intros _ x [Hx|Hx]; [subst; exact Hy|].
        apply (proj1 IH eq_refl x Hx).
Qed.

(** The category is absent exactly when [findIndex] answers [-1]. *)
Lemma lacks_snippets_category cats :
  ~ In (JString snippetsCatName) cats <->
  findIndex (strict_eq_string snippetsCatName) cats = None.
Proof.
  rewrite findIndex_none. split.
  - intros Hnot x Hx. destruct x; try reflexivity.
    cbn [strict_eq_string]. apply String.eqb_neq. intros Heq. subst s.
    exact (Hnot Hx).
  - intros Hall Hin. specialize (Hall _ Hin).
    cbn [strict_eq_string] in Hall. rewrite String.eqb_refl in Hall. discriminate.
Qed.

(** After a push onto an array that lacks the value, [indexOf] finds the
    pushed element, and [splice] at that index undoes the push. *)
Lemma findIndex_push {A} (p : A -> bool) l x :
  findIndex p l = None -> p x = true ->
  findIndex p (l ++ [x]) = Some (length l).
Proof.
  intros Hnone Hx. induction l as [|y l IH]; cbn [findIndex app length].
  - rewrite Hx. reflexivity.
  - cbn [findIndex] in Hnone. destruct (p y); [discriminate|].
    destruct (findIndex p l); [discriminate|].
    rewrite (IH eq_refl). reflexivity.
Qed.

Lemma splice1_push {A} (l : list A) x : splice1 (length l) (l ++ [x]) = l.
Proof.
  induction l as [|y l IH]; cbn [splice1 app length]; [reflexivity|].
  rewrite IH. reflexivity.
Qed.

Lemma obj_delete_set key value props :
  assoc_get key props = None ->
  obj_delete key (obj_set key value props) = props.
Proof.
  induction props as [|[k v] props IH]; cbn [assoc_get obj_set obj_delete].
  - rewrite String.eqb_refl. reflexivity.
  - destruct (String.eqb k key) eqn:Hk; [discriminate|].
    intros Hnone. cbn [obj_delete]. rewrite Hk, (IH Hnone). reflexivity.
Qed.

Lemma obj_set_new key value props :
  assoc_get key props = None ->
  obj_set key value props = props ++ [(key, value)].
Proof.
  induction props as [|[k v] props IH]; cbn [assoc_get obj_set app].
  - reflexivity.
  - destruct (String.eqb k key); [discriminate|].
    intros Hnone. rewrite (IH Hnone). reflexivity.
Qed.

(** C8 as stated fails: the remove branch deletes [contributes.snippets]
    whatever it held.  A manifest without the category but with snippets of
    its own loses them after two toggles. *)
Lemma toggle_twice_drops_foreign_snippets :
  let m := manifest_with_own_snippets in
  ~ In (JString snippetsCatName) (categories m) /\
  fst (toggleSnippets (fst (toggleSnippets m))) <> m /\
  contributes (fst (toggleSnippets (fst (toggleSnippets m)))) = [].
Proof.
  split; [|split].
  - cbn. intros [H|[]]. discriminate.
  - vm_compute. discriminate.
  - vm_compute. reflexivity.
Qed.

(** C8, amended.  On a manifest that has neither the Snippets category nor
    a [snippets] entry under [contributes], two toggles give the manifest
    back: the first takes the add branch, the second the remove branch.
    Which branch a toggle takes depends on the presence of the category
    alone. *)
Theorem toggleSnippets_round_trip m :
  ~ In (JString snippetsCatName) (categories m) ->
  assoc_get "snippets" (contributes m) = None ->
  let once := fst (toggleSnippets m) in
  once = mkManifest (categories m ++ [JString snippetsCatName])
                    (contributes m ++ [("snippets", snippets_node)]) /\
  snd (toggleSnippets m) = enabling_prompt /\
  snd (toggleSnippets once) = disabling_prompt /\
  fst (toggleSnippets once) = m.
Proof.
  intros Hlacks Hnokey once.
  apply lacks_snippets_category in Hlacks.
  assert (Honce : toggleSnippets m =
            (mkManifest (categories m ++ [JString snippetsCatName])
                        (contributes m ++ [("snippets", snippets_node)]),
             enabling_prompt)).
  { unfold toggleSnippets. rewrite Hlacks, (obj_set_new _ _ _ Hnokey). reflexivity. }
  assert (Hfound : findIndex (strict_eq_string snippetsCatName)
                     (categories m ++ [JString snippetsCatName])
                   = Some (length (categories m))).
  { apply findIndex_push; [exact Hlacks|]. cbn. reflexivity. }
  subst once. rewrite Honce. cbn [fst snd].
  split; [reflexivity|]. split; [reflexivity|].
  unfold toggleSnippets, indexOf. cbn [categories contributes].
  rewrite Hfound, splice1_push.
  rewrite <- (obj_set_new _ snippets_node _ Hnokey), (obj_delete_set _ _ _ Hnokey).
  cbn [fst snd]. split; [reflexivity|]. destruct m; reflexivity.
Qed.

Lemma toggleSnippets_round_trip_witness :
  fst (toggleSnippets (fst (toggleSnippets sample_manifest))) = sample_manifest.
Proof.
  apply (toggleSnippets_round_trip sample_manifest).
  - cbn. intros [H|[H|[]]]; discriminate.
  - vm_compute. reflexivity.
Defined.

(** The branch taken is decided by the category alone. *)
Lemma toggleSnippets_branch m :
  (In (JString snippetsCatName) (categories m) ->
     snd (toggleSnippets m) = disabling_prompt /\
     contributes (fst (toggleSnippets m)) = obj_delete "snippets" (contributes m)) /\
  (~ In (JString snippetsCatName) (categories m) ->
     snd (toggleSnippets m) = enabling_prompt /\
     categories (fst (toggleSnippets m)) = categories m ++ [JString snippetsCatName]).
Proof.
  unfold toggleSnippets. split.
  - intros Hin.
    destruct (findIndex _ (categories m)) eqn:Hfind.
    + split; reflexivity.
    + apply lacks_snippets_category in Hfind. contradiction.
  - intros Hlacks. apply lacks_snippets_category in Hlacks. rewrite Hlacks.
    split; reflexivity.
Qed.

(** The command applies the transformation to the manifest object and
    writes the result out. *)
Lemma onToggleSnippets_applies h s :
  tempCommands s = [] ->
  let m' := fst (toggleSnippets (rawPackageJson s)) in
  rawPackageJson (exec (onToggleSnippets h) s) = m' /\
  trace (exec (onToggleSnippets h) s)
  = trace s ++ [WriteFile m'; ShowInformationMessage (snd (toggleSnippets (rawPackageJson s)))].
Proof.
  intros Htc m'. unfold exec, onToggleSnippets, bind.
  rewrite (onActivationEvent_idle h s Htc).
  unfold info, emit, gets, modify. cbn [fst snd]. fields.
  split; [reflexivity|]. rewrite <- app_assoc. reflexivity.
Qed.

(** * Redirects *)

(** C10.  When the first response to a download is a 301 or 302 with a
    location, the second request goes to that location and carries no
    headers, whatever headers the caller supplied. *)
Theorem redirect_drops_headers net fuel urlStr destinationPath headers response redirectUrl :
  net (mkRequest urlStr (Some headers)) = Responds response ->
  statusCode response = 301 \/ statusCode response = 302 ->
  redirect_target (location response) = Some redirectUrl ->
  exists later,
    fst (downloadFileToDestination net (S (S fuel)) urlStr destinationPath (Some headers))
    = mkRequest urlStr (Some headers) :: mkRequest redirectUrl None :: later /\
    downloadFileToDestination net (S (S fuel)) urlStr destinationPath (Some headers)
    = (mkRequest urlStr (Some headers)
         :: fst (downloadFileToDestination net (S fuel) redirectUrl destinationPath None),
       snd (downloadFileToDestination net (S fuel) redirectUrl destinationPath None)).
Proof.
  intros Hreply Hstatus Htarget.
  assert (Hredirect : Nat.eqb (statusCode response) 301
                      || Nat.eqb (statusCode response) 302 = true).
  { destruct Hstatus as [-> | ->]; reflexivity. }
  assert (Hstep : downloadFileToDestination net (S (S fuel)) urlStr destinationPath
                    (Some headers)
                  = (mkRequest urlStr (Some headers)
                       :: fst (downloadFileToDestination net (S fuel) redirectUrl
                                 destinationPath None),
                     snd (downloadFileToDestination net (S fuel) redirectUrl
                            destinationPath None))).
  { cbn [downloadFileToDestination]. rewrite Hreply, Hredirect.
    destruct (location response) as [loc | [|loc more] | ]; cbn [redirect_target] in Htarget;
      try discriminate; injection Htarget as ->; reflexivity. }
  assert (Hsecond : exists later,
            fst (downloadFileToDestination net (S fuel) redirectUrl destinationPath None)
            = mkRequest redirectUrl None :: later).
  { cbn [downloadFileToDestination].
    destruct (net (mkRequest redirectUrl None)) as [r|]; [|eexists; reflexivity].
    destruct (Nat.eqb (statusCode r) 301 || Nat.eqb (statusCode r) 302).
    - destruct (location r) as [loc | [|loc more] | ]; eexists; reflexivity.
    - destruct (negb (Nat.eqb (statusCode r) 200)); [eexists; reflexivity|].
      destruct (streamOk r); eexists; reflexivity. }
  destruct Hsecond as [later Hlater]. exists later. split; [|exact Hstep].
  rewrite Hstep. cbn [fst]. rewrite Hlater. reflexivity.
Qed.

(** The release list is asked for with a User-Agent header; the server
    redirects, the follow-up request goes out bare and is refused. *)
Lemma redirect_drops_headers_witness :
  exists later,
    fst (downloadFileToDestination strict_api 2 releases_url "/ext/releases.json"
           (Some [("User-Agent", "vscode-cpptools")]))
    = mkRequest releases_url (Some [("User-Agent", "vscode-cpptools")])
        :: mkRequest "https://api.github.com/mirror" None :: later.
Proof.
  destruct (redirect_drops_headers strict_api 0 releases_url "/ext/releases.json"
              [("User-Agent", "vscode-cpptools")]
              (mkResponse 302 (LocationString "https://api.github.com/mirror") true)
              "https://api.github.com/mirror"
              eq_refl (or_intror eq_refl) eq_refl) as [later [Hlog _]].
  exists later. exact Hlog.
Defined.

Example redirected_release_list_is_refused :
  downloadFileToDestination strict_api 5 releases_url "/ext/releases.json"
    (Some [("User-Agent", "vscode-cpptools")])
  = ([ mkRequest releases_url (Some [("User-Agent", "vscode-cpptools")]);
       mkRequest "https://api.github.com/mirror" None ],
     DownloadRejected).
Proof.
  vm_compute. reflexivity.
Qed.

(** * The crash reporter *)

Lemma string_length_append (a b : string) :
  String.length (a ++ b) = String.length a + String.length b.
Proof.
  induction a as [|c a IH]; cbn [append String.length]; [reflexivity|].
  rewrite IH. reflexivity.
Qed.

Lemma substring_length_le s : forall n m, String.length (substring n m s) <= m.
Proof.
  induction s as [|c s IH]; intros [|n] [|m]; cbn [substring String.length]; try lia.
  - specialize (IH 0 m). lia.
  - apply IH.
  - apply IH.
Qed.

Lemma substring_nothing s : forall n, substring n 0 s = EmptyString.
Proof.
  induction s as [|c s IH]; intros [|n]; cbn [substring]; try reflexivity.
  apply IH.
Qed.

(** [substr] from a position that is not negative. *)
Lemma js_substr_from_nat s (n : nat) (len : Z) :
  js_substr s (Z.of_nat n) len
  = substring n (Z.to_nat (Z.min (Z.max len 0) (js_length s - Z.of_nat n))) s.
Proof.
  unfold js_substr. cbv zeta.
  assert (Hn : (Z.of_nat n <? 0)%Z = false) by (apply Z.ltb_ge; lia).
  rewrite Hn.
  destruct (Z.leb_spec (Z.min (Z.max len 0) (js_length s - Z.of_nat n)) 0) as [Hle|Hgt].
  - replace (Z.to_nat (Z.min (Z.max len 0) (js_length s - Z.of_nat n))) with 0 by lia.
    rewrite substring_nothing. reflexivity.
  - rewrite Nat2Z.id. reflexivity.
Qed.

Lemma js_substr_length s (n : nat) (len : Z) :
  (js_length (js_substr s (Z.of_nat n) len) <= Z.max len 0)%Z.
Proof.
  rewrite js_substr_from_nat. unfold js_length.
  pose proof (substring_length_le s n
                (Z.to_nat (Z.min (Z.max len 0) (Z.of_nat (String.length s) - Z.of_nat n)))).
  lia.
Qed.

(** The call stack sent with a MacCrash event is never longer than 16384
    characters plus the three dots that mark a cut. *)
Theorem crash_stack_bounded data :
  (js_length (crashingThreadCallStack data) <= 16387)%Z.
Proof.
  unfold crashingThreadCallStack. cbv zeta.
  match goal with
  | |- context [if (js_length ?d >? 16384)%Z then _ else _] => set (slice := d)
  end.
  destruct (Z.gtb_spec (js_length slice) 16384) as [Hlong|Hshort].
  - unfold js_length at 1. rewrite string_length_append.
    pose proof (js_substr_length slice 0 16384) as Hcut.
    unfold js_length in Hcut at 1. change (Z.of_nat 0) with 0%Z in Hcut.
    change (String.length "...") with 3. lia.
  - lia.
Qed.

(** Without a further line that mentions a thread, the reporter takes the
    end of the text to be [data.length - 1]: the last character of the log
    is not reported. *)
Theorem crash_stack_without_thread data :
  let start := match index 0 " Crashed:" data with Some i => i | None => 0 end in
  index start "Thread " data = None ->
  (js_length data - 1 - Z.of_nat start <= 16384)%Z ->
  crashingThreadCallStack data
  = substring start (String.length data - 1 - start) data.
Proof.
  intros start Hnone Hshort.
  unfold crashingThreadCallStack, js_indexOf. cbv zeta.
  change (Z.to_nat 0) with 0.
  assert (Hstart :
    (if (match index 0 " Crashed:" data with
         | Some i => Z.of_nat i
         | None => (-1)%Z
         end <? 0)%Z
     then 0%Z
     else match index 0 " Crashed:" data with
          | Some i => Z.of_nat i
          | None => (-1)%Z
          end) = Z.of_nat start).
  { subst start. destruct (index 0 " Crashed:" data) as [i|].
    - assert (Hi : (Z.of_nat i <? 0)%Z = false) by (apply Z.ltb_ge; lia).
      rewrite Hi. reflexivity.
    - reflexivity. }
  rewrite Hstart, Nat2Z.id, Hnone.
  assert (Hlt : (-1 <? Z.of_nat start)%Z = true) by (apply Z.ltb_lt; lia).
  rewrite Hlt, js_substr_from_nat.
  replace (Z.to_nat (Z.min (Z.max (js_length data - 1 - Z.of_nat start) 0)
                           (js_length data - Z.of_nat start)))
    with (String.length data - 1 - start) by (unfold js_length; lia).
  pose proof (substring_length_le data start (String.length data - 1 - start)) as Hlen.
  assert (Hfits : (js_length (substring start (String.length data - 1 - start) data)
                   >? 16384)%Z = false).
  { rewrite Z.gtb_ltb. apply Z.ltb_ge. unfold js_length in *. lia. }
  rewrite Hfits. reflexivity.
Qed.

Lemma crash_stack_without_thread_witness :
  crashingThreadCallStack "abort() called" = "abort() calle".
Proof.
  apply (crash_stack_without_thread "abort() called").
  - vm_compute. reflexivity.
  - vm_compute. discriminate.
Defined.

Lemma index_from s2 : forall n m s1, index n s1 s2 = Some m -> n <= m.
Proof.
  induction s2 as [|b s2 IH]; intros [|n] m s1; cbn [index]; try lia.
  - discriminate.
  - destruct (index n s1 s2) as [k|] eqn:Hk; [|discriminate].
    intros [= <-]. apply IH in Hk. lia.
Qed.

Lemma substring_length s : forall n m,
  String.length (substring n m s) = Nat.min m (String.length s - n).
Proof.
  induction s as [|c s IH]; intros [|n] [|m]; cbn [substring String.length]; try lia.
  - rewrite (IH 0 m). lia.
  - rewrite (IH n 0). lia.
  - rewrite (IH n (S m)). lia.
Qed.

Lemma substring_of_substring s : forall n m k,
  k <= m -> substring 0 k (substring n m s) = substring n k s.
Proof.
  induction s as [|c s IH]; intros [|n] [|m] [|k] Hk; cbn [substring];
    rewrite ?substring_nothing; try reflexivity; try lia.
  - rewrite (IH 0 m k) by lia. reflexivity.
  - apply (IH n (S m) (S k)). lia.
Qed.

Lemma substring_of_append (x y : string) : forall k,
  k <= String.length x -> substring 0 k (x ++ y) = substring 0 k x.
Proof.
  induction x as [|c x IH]; intros [|k] Hk; cbn [append substring String.length] in *;
    try reflexivity; try lia.
  - destruct y; reflexivity.
  - rewrite IH by lia. reflexivity.
Qed.

(** No character of the marker is a capital T, so the next thread line
    starts after the marker. *)
Lemma thread_after_marker data i j :
  index 0 " Crashed:" data = Some i ->
  index i "Thread " data = Some j ->
  i + 9 <= j /\ j + 7 <= String.length data.
Proof.
  intros Hi Hj.
  pose proof (index_from _ _ _ _ Hj) as Hle.
  apply index_correct1 in Hi. apply index_correct1 in Hj.
  change (String.length " Crashed:") with 9 in Hi.
  change (String.length "Thread ") with 7 in Hj.
  split.
  - destruct (Nat.lt_ge_cases j (i + 9)) as [Hlt|Hge]; [exfalso|exact Hge].
    assert (HT : get (j - i) (substring i 9 data) = Some "T"%char).
    { rewrite substring_correct1 by lia.
      replace (j - i + i) with (0 + j) by lia.
      rewrite <- (substring_correct1 data j 7 0) by lia.
      rewrite Hj. reflexivity. }
    rewrite Hi in HT.
    assert (Hk : j - i < 9) by lia.
    destruct (j - i) as [|[|[|[|[|[|[|[|[|k]]]]]]]]]; cbn in HT; try discriminate; lia.
  - pose proof (substring_length data j 7) as Hlen. rewrite Hj in Hlen.
    change (String.length "Thread ") with 7 in Hlen. lia.
Qed.

(** When the log has the line of the crashed thread and a thread line
    after it, the reported stack begins with the marker of the crashed
    thread; unless it is cut for length it is the text from the marker up
    to the next thread line. *)
Theorem crash_stack_starts_at_marker data i j :
  index 0 " Crashed:" data = Some i ->
  index i "Thread " data = Some j ->
  js_startsWith (crashingThreadCallStack data) " Crashed:" = true /\
  ((Z.of_nat j - Z.of_nat i <= 16384)%Z ->
   crashingThreadCallStack data = substring i (j - i) data).
Proof.
  intros Hi Hj.
  destruct (thread_after_marker data i j Hi Hj) as [Hfar Hfits].
  pose proof (index_correct1 _ _ _ _ Hi) as Hmark.
  change (String.length " Crashed:") with 9 in Hmark.
  unfold crashingThreadCallStack, js_indexOf. cbv zeta.
  change (Z.to_nat 0) with 0. rewrite Hi.
  assert (Hpos : (Z.of_nat i <? 0)%Z = false) by (apply Z.ltb_ge; lia).
  rewrite Hpos, Nat2Z.id, Hj.
  assert (Hord : (Z.of_nat j <? Z.of_nat i)%Z = false) by (apply Z.ltb_ge; lia).
  rewrite Hord, js_substr_from_nat.
  replace (Z.to_nat (Z.min (Z.max (Z.of_nat j - Z.of_nat i) 0)
                           (js_length data - Z.of_nat i)))
    with (j - i) by (unfold js_length; lia).
  set (slice := substring i (j - i) data).
  assert (Hslice : String.length slice = j - i).
  { subst slice. rewrite substring_length. lia. }
  assert (Hhead : substring 0 9 slice = " Crashed:").
  { subst slice. rewrite substring_of_substring by lia. exact Hmark. }
  unfold js_startsWith.
  destruct (Z.gtb_spec (js_length slice) 16384) as [Hlong|Hshort].
  - split.
    + apply prefix_correct. change (String.length " Crashed:") with 9.
      change 0%Z with (Z.of_nat 0). rewrite js_substr_from_nat.
      set (kept := Z.to_nat (Z.min (Z.max 16384 0) (js_length slice - Z.of_nat 0))).
      assert (Hkept : 9 <= kept) by (subst kept; unfold js_length in *; lia).
      rewrite substring_of_append.
      * rewrite substring_of_substring by exact Hkept. exact Hhead.
      * rewrite substring_length. unfold js_length in Hlong. lia.
    + intros Hsmall. unfold js_length in Hlong. lia.
  - split.
    + apply prefix_correct. exact Hhead.
    + reflexivity.
Qed.

Lemma crash_stack_starts_at_marker_witness :
  js_startsWith
    (crashingThreadCallStack "Process: x Thread 0 Crashed: a b Thread 1: c")
    " Crashed:" = true.
Proof.
  apply (crash_stack_starts_at_marker
           "Process: x Thread 0 Crashed: a b Thread 1: c" 19 33).
  - vm_compute. reflexivity.
  - vm_compute. reflexivity.
Defined.

(** Events other than rename neither schedule a read nor disturb the
    duplicate filter; a burst of rename events for one file schedules at
    most one read; and every scheduled read is of a file of this
    extension. *)
Theorem crash_watcher_filter :
  (forall prev events,
     crashFolderEvents prev
       (filter (fun ev => String.eqb (fst ev) "rename") events)
     = crashFolderEvents prev events) /\
  (forall prev filename n,
     length (crashFolderEvents prev (repeat ("rename", filename) n)) <= 1) /\
  (forall prev events filename,
     In filename (crashFolderEvents prev events) ->
     js_startsWith filename crashFilePrefix = true).
Proof.
  split; [|split].
  - intros prev events. revert prev.
    induction events as [|[event filename] events IH]; intros prev; [reflexivity|].
    cbn [filter fst]. destruct (String.eqb event "rename") eqn:Hev.
    + cbn [crashFolderEvents].
      destruct (snd (onCrashFolderEvent prev event filename)); rewrite IH; reflexivity.
    + cbn [crashFolderEvents]. unfold onCrashFolderEvent. rewrite Hev.
      cbn [negb fst snd]. apply IH.
  - intros prev filename n.
    assert (Hquiet : forall k,
              crashFolderEvents filename (repeat ("rename", filename) k) = []).
    { induction k as [|k IHk]; [reflexivity|].
      cbn [repeat crashFolderEvents]. unfold onCrashFolderEvent.
      rewrite String.eqb_refl. cbn [negb fst snd]. rewrite String.eqb_refl.
      cbn [fst snd]. exact IHk. }
    destruct n as [|n]; [cbn; lia|].
    cbn [repeat crashFolderEvents]. unfold onCrashFolderEvent.
    rewrite String.eqb_refl. cbn [negb].
    destruct (String.eqb filename prev) eqn:Hsame.
    + apply String.eqb_eq in Hsame. subst prev. cbn [fst snd].
      rewrite Hquiet. cbn. lia.
    + destruct (negb (js_startsWith filename crashFilePrefix)); cbn [fst snd];
        rewrite Hquiet; cbn; lia.
  - intros prev events. revert prev.
    induction events as [|[event name] events IH]; intros prev filename Hin; [destruct Hin|].
    cbn [crashFolderEvents] in Hin. unfold onCrashFolderEvent in Hin.
    destruct (negb (String.eqb event "rename")); cbn [fst snd] in Hin;
      [exact (IH _ _ Hin)|].
    destruct (String.eqb name prev); cbn [fst snd] in Hin; [exact (IH _ _ Hin)|].
    destruct (js_startsWith name crashFilePrefix) eqn:Hpre; cbn [negb fst snd] in Hin.
    + destruct Hin as [<-|Hin]; [exact Hpre | exact (IH _ _ Hin)].
    + exact (IH _ _ Hin).
Qed.

Lemma crash_watcher_filter_witness :
  js_startsWith "Microsoft.VSCode.CPP.Srv_2018.crash" crashFilePrefix = true.
Proof.
  apply (proj2 (proj2 crash_watcher_filter) EmptyString
           [("change", "other.crash"); ("rename", "Microsoft.VSCode.CPP.Srv_2018.crash")]).
  vm_compute. left. reflexivity.
Defined.

(** * More on the self-update check *)

Lemma prefix_dash b s : prefix "-" (String b s) = true <-> b = "-"%char.
Proof.
  rewrite prefix_correct. cbn [String.length substring]. rewrite substring_nothing.
  split; [intros [= ->]; reflexivity | intros ->; reflexivity].
Qed.

Lemma index_dash_none c v :
  index 0 "-" (String c v) = None -> c <> "-"%char /\ index 0 "-" v = None.
Proof.
  cbn [index]. destruct (prefix "-" (String c v)) eqn:Hp; [discriminate|].
  destruct (index 0 "-" v); [discriminate|]. intros _. split; [|reflexivity].
  intros ->. assert (Ht : prefix "-" (String "-" v) = true) by (apply prefix_dash; reflexivity).
  congruence.
Qed.

(** In a string of the form [v-rest] where [v] has no dash, the first dash
    is the one after [v]. *)
Lemma index_dash_append v rest :
  index 0 "-" v = None ->
  index 0 "-" (v ++ String "-" rest) = Some (String.length v).
Proof.
  induction v as [|c v IH]; intros Hnone.
  - cbn [append index String.length].
    assert (Ht : prefix "-" (String "-" rest) = true) by (apply prefix_dash; reflexivity).
    rewrite Ht. reflexivity.
  - apply index_dash_none in Hnone. destruct Hnone as [Hc Hv].
    cbn [append index String.length].
    destruct (prefix "-" (String c (v ++ String "-" rest))) eqn:Hp.
    + apply prefix_dash in Hp. contradiction.
    + rewrite (IH Hv). reflexivity.
Qed.

Lemma substring_whole s : substring 0 (String.length s) s = s.
Proof.
  induction s as [|c s IH]; cbn [substring String.length]; [reflexivity|].
  rewrite IH. reflexivity.
Qed.

Lemma substring_head (v x : string) : substring 0 (String.length v) (v ++ x) = v.
Proof.
  rewrite substring_of_append by lia. apply substring_whole.
Qed.

Lemma substring_skip (v x : string) : forall n m,
  substring (String.length v + n) m (v ++ x) = substring n m x.
Proof.
  induction v as [|c v IH]; intros n m; cbn [append String.length Nat.add substring].
  - reflexivity.
  - apply IH.
Qed.

(** The running version is the package version with a trailing -insiders
    removed; any other suffix after the first dash, a second dash included,
    makes the check give up. *)
Theorem currentVersion_suffix v :
  index 0 "-" v = None ->
  currentVersion v = Some v /\
  currentVersion (v ++ "-insiders") = Some v /\
  (forall suffix, suffix <> "insiders" ->
     currentVersion (v ++ "-" ++ suffix) = None).
Proof.
  intros Hnone. split; [|split].
  - unfold currentVersion. rewrite Hnone. reflexivity.
  - unfold currentVersion, substr_from.
    change (v ++ "-insiders")%string with (v ++ String "-" "insiders")%string.
    rewrite (index_dash_append v "insiders" Hnone).
    rewrite substring_skip, string_length_append.
    replace (String.length v + String.length (String "-" "insiders")
             - (String.length v + 1)) with (String.length "insiders")
      by (cbn [String.length]; lia).
    change (substring 1 (String.length "insiders") (String "-" "insiders"))
      with (substring 0 (String.length "insiders") "insiders").
    rewrite substring_whole, String.eqb_refl. cbn [negb].
    rewrite substring_head. reflexivity.
  - intros suffix Hsuffix. unfold currentVersion, substr_from.
    change (v ++ "-" ++ suffix)%string with (v ++ String "-" suffix)%string.
    rewrite (index_dash_append v suffix Hnone).
    rewrite substring_skip, string_length_append.
    replace (String.length v + String.length (String "-" suffix)
             - (String.length v + 1)) with (String.length suffix)
      by (cbn [String.length]; lia).
    change (substring 1 (String.length suffix) (String "-" suffix))
      with (substring 0 (String.length suffix) suffix).
    rewrite substring_whole.
    apply String.eqb_neq in Hsuffix. rewrite Hsuffix. reflexivity.
Qed.

Lemma currentVersion_suffix_witness :
  currentVersion ("0.17.5" ++ "-insiders") = Some "0.17.5".
Proof.
  apply (currentVersion_suffix "0.17.5").
  vm_compute. reflexivity.
Defined.

(** Whenever the check gets as far as installing, the platform is Linux on
    x86 or x86_64, and the command it runs is the directory of the host
    executable followed by the install flag and the downloaded package: the
    Windows launcher is never used. *)
Theorem update_installs_only_on_linux env fuel command :
  checkAndApplyUpdate env fuel = Installed command ->
  pi_platform (platformInfo env) = "linux" /\
  exists vsixName,
    (architecture (platformInfo env) = "x86_64" /\ vsixName = "cpptools-linux.vsix" \/
     architecture (platformInfo env) = "x86" /\ vsixName = "cpptools-linux32.vsix") /\
    command = (vscodeProcessPath env ++ " --install-extension "
               ++ getExtensionFilePath env vsixName)%string.
Proof.
  unfold checkAndApplyUpdate.
  destruct (currentVersion (packageVersion env)) as [version|]; [|discriminate].
  destruct (is_empty version); [discriminate|].
  destruct (snd (downloadFileToDestination _ _ _ _ _)); try discriminate.
  destruct (parsedReleases env) as [[|latestBuild others]|]; try discriminate.
  destruct (js_ge version (release_name latestBuild)); [discriminate|].
  unfold applyUpdate, vsixNameFor, vsCodeCommandFileFor.
  destruct (String.eqb (pi_platform (platformInfo env)) "linux") eqn:Hlinux;
    [|discriminate].
  apply String.eqb_eq in Hlinux.
  assert (Hwin : String.eqb (pi_platform (platformInfo env)) "windows" = false).
  { rewrite Hlinux. reflexivity. }
  rewrite Hwin.
  destruct (String.eqb (architecture (platformInfo env)) "x86_64") eqn:H64.
  - apply String.eqb_eq in H64.
    destruct (is_empty "cpptools-linux.vsix"); [discriminate|].
    destruct (find _ _) as [asset|]; [|discriminate].
    destruct (is_empty (browser_download_url asset)); [discriminate|].
    destruct (snd (downloadFileToDestination _ _ _ _ _)); try discriminate.
    destruct (is_empty (vscodeProcessPath env)); [discriminate|].
    intros [= <-]. split; [exact Hlinux|].
    exists "cpptools-linux.vsix". split; [left; split; [exact H64|reflexivity] | reflexivity].
  - destruct (String.eqb (architecture (platformInfo env)) "x86") eqn:H32; [|discriminate].
    apply String.eqb_eq in H32.
    destruct (is_empty "cpptools-linux32.vsix"); [discriminate|].
    destruct (find _ _) as [asset|]; [|discriminate].
    destruct (is_empty (browser_download_url asset)); [discriminate|].
    destruct (snd (downloadFileToDestination _ _ _ _ _)); try discriminate.
    destruct (is_empty (vscodeProcessPath env)); [discriminate|].
    intros [= <-]. split; [exact Hlinux|].
    exists "cpptools-linux32.vsix". split; [right; split; [exact H32|reflexivity] | reflexivity].
Qed.

Lemma update_installs_only_on_linux_witness :
  pi_platform (platformInfo (linux_env "1.2.0" "1.3.0")) = "linux".
Proof.
  apply (update_installs_only_on_linux (linux_env "1.2.0" "1.3.0") 3
           "/usr/share/code --install-extension /ext/cpptools-linux.vsix").
  vm_compute. reflexivity.
Defined.

(** * More on downloads *)

(** A download resolves only when the last request of the chain was
    answered with status 200 and its body arrived in full. *)
Theorem download_resolves_only_on_200 net destinationPath : forall fuel urlStr headers,
  snd (downloadFileToDestination net fuel urlStr destinationPath headers)
    = DownloadResolved ->
  exists earlier last response,
    fst (downloadFileToDestination net fuel urlStr destinationPath headers)
      = earlier ++ [last] /\
    net last = Responds response /\
    statusCode response = 200 /\
    streamOk response = true.
Proof.
  induction fuel as [|fuel IH]; intros urlStr headers; cbn [downloadFileToDestination].
  - discriminate.
  - destruct (net (mkRequest urlStr headers)) as [response|] eqn:Hreply; [|discriminate].
    destruct (Nat.eqb (statusCode response) 301 || Nat.eqb (statusCode response) 302).
    + destruct (location response) as [target | [|target more] | ]; try discriminate.
      * cbn [fst snd]. intros Hres.
        destruct (IH target None Hres) as (earlier & last & r & Hlog & Hlast & H200 & Hok).
        exists (mkRequest urlStr headers :: earlier), last, r.
        rewrite Hlog. repeat split; assumption.
      * cbn [fst snd]. intros Hres.
        destruct (IH target None Hres) as (earlier & last & r & Hlog & Hlast & H200 & Hok).
        exists (mkRequest urlStr headers :: earlier), last, r.
        rewrite Hlog. repeat split; assumption.
    + destruct (Nat.eqb (statusCode response) 200) eqn:H200; cbn [negb]; [|discriminate].
      destruct (streamOk response) eqn:Hok; [|discriminate].
      intros _. exists [], (mkRequest urlStr headers), response.
      apply Nat.eqb_eq in H200. repeat split; assumption.
Qed.

Lemma download_resolves_only_on_200_witness :
  exists earlier last response,
    fst (downloadFileToDestination healthy_network 1 releases_url "/ext/releases.json" None)
      = earlier ++ [last] /\
    healthy_network last = Responds response /\
    statusCode response = 200 /\
    streamOk response = true.
Proof.
  apply (download_resolves_only_on_200 healthy_network "/ext/releases.json" 1
           releases_url None).
  vm_compute. reflexivity.
Defined.

(** Redirects are followed without a limit: against a server that always
    redirects, the promise is still unsettled after any number of requests,
    and every one of them was sent. *)
Theorem download_redirect_cycle_never_settles net destinationPath :
  (forall request, exists response target,
     net request = Responds response /\
     (statusCode response = 301 \/ statusCode response = 302) /\
     redirect_target (location response) = Some target) ->
  forall fuel urlStr headers,
    snd (downloadFileToDestination net fuel urlStr destinationPath headers)
      = DownloadPending /\
    length (fst (downloadFileToDestination net fuel urlStr destinationPath headers))
      = fuel.
Proof.
  intros Hloop. induction fuel as [|fuel IH]; intros urlStr headers;
    cbn [downloadFileToDestination].
  - split; reflexivity.
  - destruct (Hloop (mkRequest urlStr headers)) as (response & target & Hreply & Hstatus & Htarget).
    rewrite Hreply.
    assert (Hredirect : Nat.eqb (statusCode response) 301
                        || Nat.eqb (statusCode response) 302 = true).
    { destruct Hstatus as [-> | ->]; reflexivity. }
    rewrite Hredirect.
    destruct (location response) as [loc | [|loc more] | ]; cbn [redirect_target] in Htarget;
      try discriminate; cbn [fst snd length];
      destruct (IH loc None) as [Hpending Hcount]; rewrite Hpending, Hcount;
      split; reflexivity.
Qed.

Lemma download_redirect_cycle_never_settles_witness :
  snd (downloadFileToDestination redirect_loop 40 releases_url "/ext/releases.json" None)
    = DownloadPending.
Proof.
  apply (download_redirect_cycle_never_settles redirect_loop "/ext/releases.json").
  intros request.
  exists (mkResponse 302 (LocationString "https://example.org/again") true),
         "https://example.org/again".
  split; [reflexivity|]. split; [right; reflexivity | reflexivity].
Defined.

(** * More on the activation gate and the commands *)

(** The activation variables of a process are consistent at every moment:
    once full activation has occurred the registry and the UI exist; before
    it no language configuration is set, and with no watcher pending nothing
    at all is subscribed; a watcher is pending only after [activate] has
    set up the persisted flag. *)
Theorem activation_state_is_consistent s :
  reachable s ->
  (realActivationOccurred s = true -> clients s <> None /\ ui s = Some TheUI) /\
  (realActivationOccurred s = false ->
     languageConfigurations s = [] /\ (tempCommands s = [] -> listeners s = [])) /\
  (tempCommands s <> [] -> activatedPreviously s = true).
Proof.
  intros Hreach.
  destruct (reachable_invariant s Hreach) as (Hpre & Hlc & Hdef & Hreg).
  split; [exact Hreg|]. split; [|exact Hdef].
  intros Hocc. split; [exact (Hlc Hocc)|].
  intros Htc. exact (proj1 (Hpre Hocc Htc)).
Qed.

Lemma activation_state_is_consistent_witness :
  clients (active_state (quiet_host true)) <> None /\
  ui (active_state (quiet_host true)) = Some TheUI.
Proof.
  assert (Hreach : reachable (active_state (quiet_host true))).
  { unfold active_state. apply reachable_step. apply reachable_init. }
  assert (Hocc : realActivationOccurred (active_state (quiet_host true)) = true).
  { vm_compute. reflexivity. }
  exact (proj1 (activation_state_is_consistent _ Hreach) Hocc).
Defined.

Lemma onActivationEvent_forgets_watchers h s :
  tempCommands (exec (onActivationEvent h) s) = [].
Proof.
  apply (wp_exec (onActivationEvent h) (fun s' => tempCommands s' = [])).
  wp_auto.
  - assumption.
  - unfold watchers_cancelled in *. fields. tauto.
  - unfold watchers_cancelled in *. tauto.
Qed.

(** An activation event after the first one changes nothing: whatever the
    state and the host, a second [onActivationEvent] returns at once. *)
Theorem onActivationEvent_idempotent h h' s :
  onActivationEvent h' (exec (onActivationEvent h) s)
  = (exec (onActivationEvent h) s, Normal tt).
Proof.
  apply onActivationEvent_idle. apply onActivationEvent_forgets_watchers.
Qed.

Ltac safe_solve :=
  unfold never, watchers_cancelled in *; fields;
  repeat match goal with H : _ /\ _ |- _ => destruct H end;
  try exact I;
  intuition (try congruence; try discriminate).

(** In every state of a process, a registered command other than
    C_Cpp.AddToIncludePath runs to completion: no handler that goes through
    the activation gate can fail on a missing registry or UI. *)
Theorem guarded_commands_never_throw c h arg s :
  reachable s ->
  existsb (is_command (commandId c)) (listeners s) = true ->
  c <> AddToIncludePath ->
  completion (handler c h arg) s = Normal tt.
Proof.
  intros Hreach Hregistered Hc.
  destruct (reachable_invariant s Hreach) as (Hpre & _ & Hdef & Hreg).
  assert (Hsafe : tempCommands s = [] -> clients s <> None /\ ui s = Some TheUI).
  { intros Htc. apply Hreg.
    destruct (realActivationOccurred s) eqn:Hocc; [reflexivity|].
    destruct (Hpre eq_refl Htc) as [Hnone _]. rewrite Hnone in Hregistered.
    discriminate. }
  clear Hreach Hregistered Hpre.
  assert (Hwp : wp (handler c h arg) (fun _ _ => True) never s).
  { destruct c; try congruence; cbn [handler].
    all: wp_auto.
    all: safe_solve. }
  apply wp_normal in Hwp. destruct Hwp as ([] & Hnormal & _). exact Hnormal.
Qed.

Lemma guarded_commands_never_throw_witness :
  completion (handler ResetDatabase (quiet_host true) EmptyString) dormant_state = Normal tt.
Proof.
  apply guarded_commands_never_throw.
  - unfold dormant_state. apply reachable_step. apply reachable_init.
  - vm_compute. reflexivity.
  - discriminate.
Defined.

(** * The listeners *)

Lemma In_dispose_all e l : forall ls,
  In e (dispose_all l ls) <->
  In e ls /\ forall d, In d l -> same_handle d e = false.
Proof.
  unfold dispose_all. induction l as [|x l IH]; intros ls; cbn [fold_left].
  - split; [intros H; split; [exact H | intros d []] | intros [H _]; exact H].
  - rewrite IH, filter_In. split.
    + intros [[Hin Hx] Hrest]. split; [exact Hin|].
      intros d [<-|Hd]; [apply negb_true_iff; exact Hx | apply Hrest; exact Hd].
    + intros [Hin Hall]. split; [split; [exact Hin|] |].
      * apply negb_true_iff. apply Hall. left. reflexivity.
      * intros d Hd. apply Hall. right. exact Hd.
Qed.

(** [updateLanguageConfigurations] replaces, it does not accumulate: with
    a registry in place it completes, the module holds exactly the two new
    configurations (c, then cpp), both live; no subscription with the handle
    of an old configuration is live any more; every other subscription is
    still live. *)
Theorem updateLanguageConfigurations_replaces s cc :
  clients s = Some cc ->
  (forall d, In d (languageConfigurations s) -> d_handle d < nextHandle s) ->
  let s' := exec updateLanguageConfigurations s in
  let c := mkDisposable (nextHandle s) (SubLanguageConfiguration "c") in
  let cpp := mkDisposable (S (nextHandle s)) (SubLanguageConfiguration "cpp") in
  completion updateLanguageConfigurations s = Normal tt /\
  languageConfigurations s' = [c; cpp] /\
  In c (listeners s') /\ In cpp (listeners s') /\
  (forall old e, In old (languageConfigurations s) -> In e (listeners s') ->
     d_handle e <> d_handle old) /\
  (forall e, In e (listeners s) ->
     (forall old, In old (languageConfigurations s) -> d_handle old <> d_handle e) ->
     In e (listeners s')).
Proof.
  intros Hcl Hfresh s' c cpp.
  assert (Hwp : wp updateLanguageConfigurations
    (fun _ s1 =>
       languageConfigurations s1 = [c; cpp] /\
       listeners s1 = (dispose_all (languageConfigurations s) (listeners s) ++ [c]) ++ [cpp])
    never s).
  { unfold updateLanguageConfigurations. wp_go; try congruence.
    split; reflexivity. }
  apply wp_normal in Hwp. destruct Hwp as ([] & Hnormal & Hlc & Hls).
  fold s' in Hlc, Hls. rewrite Hls.
  split; [exact Hnormal|]. split; [exact Hlc|].
  split; [apply in_or_app; left; apply in_or_app; right; left; reflexivity|].
  split; [apply in_or_app; right; left; reflexivity|].
  split.
  - intros old e Hold He Heq. unfold c, cpp in He.
    apply in_app_or in He. destruct He as [He|[<-|[]]].
    + apply in_app_or in He. destruct He as [He|[<-|[]]].
      * apply In_dispose_all in He. destruct He as [_ Hall].
        specialize (Hall old Hold). unfold same_handle in Hall.
        apply Nat.eqb_neq in Hall. congruence.
      * cbn [d_handle] in Heq. specialize (Hfresh old Hold). lia.
    + cbn [d_handle] in Heq. specialize (Hfresh old Hold). lia.
  - intros e He Hother. apply in_or_app. left. apply in_or_app. left.
    apply In_dispose_all. split; [exact He|].
    intros d Hd. unfold same_handle. apply Nat.eqb_neq. apply Hother. exact Hd.
Qed.

Lemma updateLanguageConfigurations_replaces_witness :
  length (languageConfigurations
            (exec updateLanguageConfigurations (active_state (quiet_host true)))) = 2.
Proof.
  assert (Hcl : clients (active_state (quiet_host true)) = Some one_client).
  { vm_compute. reflexivity. }
  assert (Hfresh : forall d,
            In d (languageConfigurations (active_state (quiet_host true))) ->
            d_handle d < nextHandle (active_state (quiet_host true))).
  { vm_compute. intros d [<-|[<-|[]]]; cbn [d_handle]; lia. }
  destruct (updateLanguageConfigurations_replaces (active_state (quiet_host true))
              one_client Hcl Hfresh) as (_ & Hlc & _).
  rewrite Hlc. reflexivity.
Defined.

(** Before full activation the exported [updateLanguageConfigurations]
    fails on the missing registry and changes nothing: in every state of a
    process without a registry no language configuration is set, so none is
    disposed and none is lost. *)
Theorem updateLanguageConfigurations_before_activation s :
  reachable s ->
  clients s = None ->
  languageConfigurations s = [] /\
  updateLanguageConfigurations s = (s, Throw (TypeError "clients is undefined")).
Proof.
  intros Hreach Hcl.
  assert (Hlc : languageConfigurations s = []).
  { destruct (reachable_invariant s Hreach) as (_ & Hnone & _ & Hgate).
    destruct (realActivationOccurred s); [|apply Hnone; reflexivity].
    destruct (Hgate eq_refl) as [Hsome _]. contradiction. }
  split; [exact Hlc|].
  unfold updateLanguageConfigurations, clients_ActiveClient, the_clients,
    bind, gets, modify, throw.
  rewrite Hlc. cbn [forEach ret]. fields. rewrite Hcl.
  destruct s; cbn in Hlc |- *. subst. reflexivity.
Qed.

Lemma updateLanguageConfigurations_before_activation_witness :
  updateLanguageConfigurations dormant_state
  = (dormant_state, Throw (TypeError "clients is undefined")).
Proof.
  apply (updateLanguageConfigurations_before_activation dormant_state).
  - unfold dormant_state. apply reachable_step. apply reachable_init.
  - vm_compute. reflexivity.
Defined.

(** [onDidChangeActiveTextEditor] decides by the window's active editor and
    takes its data from the editor it is given.  With a c/cpp document
    active it sets the tracker to the given editor's URI, tells the clients
    about the document, forwards the cursor to the client that is active
    afterwards and then tells the UI; otherwise it empties the tracker and
    tells only the UI. *)
Theorem active_editor_change h editor s cc u :
  clients s = Some cc ->
  ui s = Some u ->
  let s' := exec (onDidChangeActiveTextEditor h editor) s in
  let relevant :=
    match activeTextEditor h with
    | Some active => is_c_or_cpp (languageId (document active))
    | None => false
    end in
  (relevant = false ->
     completion (onDidChangeActiveTextEditor h editor) s = Normal tt /\
     activeDocument s' = Some EmptyString /\
     clients s' = Some cc /\
     trace s' = trace s ++ [UiActiveDocumentChanged]) /\
  (forall ed, relevant = true -> editor = Some ed ->
     completion (onDidChangeActiveTextEditor h editor) s = Normal tt /\
     activeDocument s' = Some (uri_toString (uri (document ed))) /\
     clients s' = Some (activeDocumentChanged h cc (document ed)) /\
     trace s' = trace s ++
       [ ClientsActiveDocumentChanged (document ed);
         ClientSelectionChanged (ActiveClient (activeDocumentChanged h cc (document ed)))
                                (sel_start (selection ed));
         UiActiveDocumentChanged ]).
Proof.
  intros Hcl Hui s' relevant. split.
  - intros Hquiet.
    assert (Hwp : wp (onDidChangeActiveTextEditor h editor)
      (fun _ s1 => activeDocument s1 = Some EmptyString /\ clients s1 = Some cc /\
                   trace s1 = trace s ++ [UiActiveDocumentChanged]) never s).
    { subst relevant. unfold onDidChangeActiveTextEditor.
      destruct (activeTextEditor h) as [active|].
      - repeat (first [rewrite Hquiet | rewrite Hcl | rewrite Hui | wp_step | wp_unfold];
                fields).
        repeat split; try exact Hcl.
      - repeat (first [rewrite Hcl | rewrite Hui | wp_step | wp_unfold]; fields).
        repeat split; try exact Hcl. }
    apply wp_normal in Hwp. destruct Hwp as ([] & Hnormal & Hpost).
    split; [exact Hnormal | exact Hpost].
  - intros ed Hrel ->.
    assert (Hwp : wp (onDidChangeActiveTextEditor h (Some ed))
      (fun _ s1 =>
         activeDocument s1 = Some (uri_toString (uri (document ed))) /\
         clients s1 = Some (activeDocumentChanged h cc (document ed)) /\
         trace s1 = trace s ++
           [ ClientsActiveDocumentChanged (document ed);
             ClientSelectionChanged
               (ActiveClient (activeDocumentChanged h cc (document ed)))
               (sel_start (selection ed));
             UiActiveDocumentChanged ]) never s).
    { subst relevant. unfold onDidChangeActiveTextEditor.
      destruct (activeTextEditor h) as [active|]; [|discriminate].
      repeat (first [rewrite Hrel | rewrite Hcl | rewrite Hui | wp_step | wp_unfold];
              fields).
      repeat split. rewrite <- !app_assoc. reflexivity. }
    apply wp_normal in Hwp. destruct Hwp as ([] & Hnormal & Hpost).
    split; [exact Hnormal | exact Hpost].
Qed.

Lemma active_editor_change_witness :
  activeDocument
    (exec (onDidChangeActiveTextEditor (editing_host util_cpp) (Some (editor_of util_cpp)))
          (active_state (editing_host main_cpp)))
  = Some "file:///home/dev/project/util.cpp".
Proof.
  assert (Hcl : clients (active_state (editing_host main_cpp)) = Some one_client).
  { vm_compute. reflexivity. }
  assert (Hui : ui (active_state (editing_host main_cpp)) = Some TheUI).
  { vm_compute. reflexivity. }
  destruct (proj2 (active_editor_change (editing_host util_cpp) (Some (editor_of util_cpp))
                     (active_state (editing_host main_cpp)) one_client TheUI Hcl Hui)
                  (editor_of util_cpp) eq_refl eq_refl) as (_ & Htracker & _).
  exact Htracker.
Defined.

(** * Listeners and shutdown on the session *)

Ltac session_fields :=
  cbn [core insiderUpdateTimer saveMessageShown hostCalls
       set_core set_saveMessageShown set_hostCalls fst snd] in *.

Lemma wpS_ret {A} E (a : A) Q x : Q a x -> wpS (retS a) Q E x.
Proof. exact (fun H => H). Qed.

Lemma wpS_gets {A} E (f : Session -> A) Q x : Q (f x) x -> wpS (getsS f) Q E x.
Proof. exact (fun H => H). Qed.

Lemma wpS_modify E (f : Session -> Session) Q x : Q tt (f x) -> wpS (modifyS f) Q E x.
Proof. exact (fun H => H). Qed.

Lemma wpS_host E (c : HostCall) Q x :
  Q tt (set_hostCalls (hostCalls x ++ [c]) x) -> wpS (host c) Q E x.
Proof. exact (fun H => H). Qed.

Lemma wpS_bind {A B} E (m : MS A) (k : A -> MS B) Q x :
  wpS m (fun a x' => wpS (k a) Q E x') E x -> wpS (bindS m k) Q E x.
Proof.
  unfold wpS, bindS. destruct (m x) as [x' [a|e]]; exact (fun H => H).
Qed.

(** A core handler inside a session is reasoned about on the core. *)
Lemma wpS_lift {A} E (m : M A) Q x :
  wp m (fun a s' => Q a (set_core s' x)) (fun e s' => E e (set_core s' x)) (core x) ->
  wpS (lift m) Q E x.
Proof.
  unfold wpS, wp, lift. destruct (m (core x)) as [s' [a|e]]; exact (fun H => H).
Qed.

Lemma wpS_elim {A} (m : MS A) Q E x :
  wpS m Q E x ->
  match snd (m x) with
  | Normal a => Q a (fst (m x))
  | Throw e => E e (fst (m x))
  end.
Proof.
  unfold wpS. destruct (m x) as [x' [a|e]]; exact (fun H => H).
Qed.

Ltac wpS_step :=
  cbv beta;
  lazymatch goal with
  | |- wpS (bindS _ _) _ _ _ => apply wpS_bind
  | |- wpS (retS _) _ _ _ => apply wpS_ret
  | |- wpS (getsS _) _ _ _ => apply wpS_gets
  | |- wpS (modifyS _) _ _ _ => apply wpS_modify
  | |- wpS (host _) _ _ _ => apply wpS_host
  | |- wpS (lift _) _ _ _ => apply wpS_lift
  | |- wpS (if ?b then _ else _) _ _ _ => destruct b eqn:?
  | |- wpS (match ?v with _ => _ end) _ _ _ => destruct v eqn:?
  end.

Ltac wpS_go :=
  repeat (first [wpS_step | wp_step | wp_unfold]; fields; session_fields).

(** What one save event can do: nothing, or raise the flag and show the
    notice. *)
Lemma onDidSaveTextDocument_step h setting doc x :
  let x' := fst (onDidSaveTextDocument h setting doc x) in
  snd (onDidSaveTextDocument h setting doc x) = Normal tt /\
  (x' = x \/
   saveMessageShown x = false /\ saveMessageShown x' = true /\
   trace (core x') = trace (core x) ++ [ShowInformationMessage formatOnSave_notice]).
Proof.
  cbv zeta. unfold onDidSaveTextDocument.
  destruct (activeTextEditor h) as [active|]; [|split; [reflexivity | left; reflexivity]].
  destruct (negb _ || _); [split; [reflexivity | left; reflexivity]|].
  unfold bindS, getsS. destruct (saveMessageShown x) eqn:Hshown; cbn [negb andb].
  - split; [reflexivity | left; reflexivity].
  - destruct setting.
    + unfold modifyS, lift, info, emit, modify. session_fields. fields.
      split; [reflexivity|]. right. repeat split.
    + split; [reflexivity | left; reflexivity].
Qed.

(** The notice about the removed format-on-save setting is shown at most
    once in the life of a process, whatever is saved and however often. *)
Theorem save_notice_at_most_once events : forall x,
  count is_formatOnSave_notice (trace (core (saveAll events x)))
  <= count is_formatOnSave_notice (trace (core x))
     + (if saveMessageShown x then 0 else 1).
Proof.
  unfold saveAll. induction events as [|[[h setting] doc] events IH]; intros x.
  - cbn [fold_left]. lia.
  - cbn [fold_left fst snd].
    destruct (onDidSaveTextDocument_step h setting doc x) as [_ [Hsame | (H0 & H1 & Htrace)]].
    + cbv zeta in Hsame. rewrite Hsame. apply IH.
    + cbv zeta in H1, Htrace.
      specialize (IH (fst (onDidSaveTextDocument h setting doc x))).
      rewrite H1, Htrace, count_app in IH. rewrite H0.
      assert (Hone : count is_formatOnSave_notice
                       [ShowInformationMessage formatOnSave_notice] = 1).
      { unfold count. cbn [filter is_formatOnSave_notice].
        rewrite String.eqb_refl. reflexivity. }
      lia.
Qed.

Example save_notice_shown_once :
  let h := editing_host main_cpp in
  count is_formatOnSave_notice
    (trace (core (saveAll [(h, true, main_cpp); (h, true, main_cpp); (h, true, util_cpp)]
                          (newSession (active_state h))))) = 1.
Proof. vm_compute. reflexivity. Qed.

(** Shutting down a fully activated extension completes: no subscription
    with the handle of a recorded disposable or language configuration is
    live afterwards, the two timers are cleared, and then the UI and the
    registry are disposed, in this order.  Subscriptions that are not
    recorded in either list, such as a pending temporary watcher, stay
    live. *)
Theorem deactivate_after_activation x cc u :
  clients (core x) = Some cc ->
  ui (core x) = Some u ->
  let s := core x in
  let x' := fst (deactivate x) in
  snd (deactivate x) = Normal tt /\
  hostCalls x' = hostCalls x ++ [ ClearInterval (intervalTimer s);
                                  ClearInterval (insiderUpdateTimer x);
                                  DisposeUI; DisposeClients ] /\
  (forall d e, In d (disposables s ++ languageConfigurations s) ->
     In e (listeners (core x')) -> d_handle e <> d_handle d) /\
  (forall e, In e (listeners s) ->
     (forall d, In d (disposables s ++ languageConfigurations s) ->
        d_handle d <> d_handle e) ->
     In e (listeners (core x'))).
Proof.
  intros Hcl Hui s x'.
  assert (Hwp : wpS deactivate
    (fun _ x1 =>
       hostCalls x1 = hostCalls x ++ [ ClearInterval (intervalTimer s);
                                       ClearInterval (insiderUpdateTimer x);
                                       DisposeUI; DisposeClients ] /\
       listeners (core x1)
       = dispose_all (languageConfigurations s) (dispose_all (disposables s) (listeners s)))
    (fun _ _ => False) x).
  { unfold deactivate.
    repeat (first [rewrite Hcl | rewrite Hui | wpS_step | wp_step | wp_unfold];
            fields; session_fields).
    split; [|reflexivity]. rewrite <- !app_assoc. reflexivity. }
  apply wpS_elim in Hwp. fold x' in Hwp.
  destruct (snd (deactivate x)) as [[]|e]; [|destruct Hwp].
  destruct Hwp as [Hcalls Hlive]. rewrite Hlive.
  split; [reflexivity|]. split; [exact Hcalls|]. split.
  - intros d e Hd He Heq.
    apply In_dispose_all in He. destruct He as [He Hlc].
    apply In_dispose_all in He. destruct He as [_ Hds].
    apply in_app_or in Hd. destruct Hd as [Hd|Hd].
    + specialize (Hds d Hd). unfold same_handle in Hds.
      apply Nat.eqb_neq in Hds. congruence.
    + specialize (Hlc d Hd). unfold same_handle in Hlc.
      apply Nat.eqb_neq in Hlc. congruence.
  - intros e He Hother.
    apply In_dispose_all. split.
    + apply In_dispose_all. split; [exact He|].
      intros d Hd. unfold same_handle. apply Nat.eqb_neq.
      apply Hother. apply in_or_app. left. exact Hd.
    + intros d Hd. unfold same_handle. apply Nat.eqb_neq.
      apply Hother. apply in_or_app. right. exact Hd.
Qed.

Lemma deactivate_after_activation_witness :
  snd (deactivate (newSession (active_state (quiet_host true)))) = Normal tt.
Proof.
  assert (Hcl : clients (core (newSession (active_state (quiet_host true))))
                = Some one_client).
  { vm_compute. reflexivity. }
  assert (Hui : ui (core (newSession (active_state (quiet_host true)))) = Some TheUI).
  { vm_compute. reflexivity. }
  exact (proj1 (deactivate_after_activation _ one_client TheUI Hcl Hui)).
Defined.

(** Shutting down an extension that never fully activated fails on the
    missing UI: the recorded disposables (the command registrations) are
    disposed and the timers cleared, but neither the UI nor the registry is
    disposed and the pending watchers are not touched. *)
Theorem deactivate_before_activation x :
  ui (core x) = None ->
  let s := core x in
  let x' := fst (deactivate x) in
  snd (deactivate x) = Throw (TypeError "ui is undefined") /\
  hostCalls x' = hostCalls x ++ [ ClearInterval (intervalTimer s);
                                  ClearInterval (insiderUpdateTimer x) ] /\
  tempCommands (core x') = tempCommands s /\
  (forall d e, In d (disposables s ++ languageConfigurations s) ->
     In e (listeners (core x')) -> d_handle e <> d_handle d) /\
  (forall e, In e (listeners s) ->
     (forall d, In d (disposables s ++ languageConfigurations s) ->
        d_handle d <> d_handle e) ->
     In e (listeners (core x'))).
Proof.
  intros Hui s x'.
  assert (Hwp : wpS deactivate (fun _ _ => False)
    (fun e x1 =>
       e = TypeError "ui is undefined" /\
       hostCalls x1 = hostCalls x ++ [ ClearInterval (intervalTimer s);
                                       ClearInterval (insiderUpdateTimer x) ] /\
       tempCommands (core x1) = tempCommands s /\
       listeners (core x1)
       = dispose_all (languageConfigurations s) (dispose_all (disposables s) (listeners s)))
    x).
  { unfold deactivate.
    repeat (first [rewrite Hui | wpS_step | wp_step | wp_unfold];
            fields; session_fields).
    repeat split. rewrite <- !app_assoc. reflexivity. }
  apply wpS_elim in Hwp. fold x' in Hwp.
  destruct (snd (deactivate x)) as [[]|e]; [destruct Hwp|].
  destruct Hwp as (-> & Hcalls & Htemp & Hlive). rewrite Hlive.
  split; [reflexivity|]. split; [exact Hcalls|]. split; [exact Htemp|]. split.
  - intros d e Hd He Heq.
    apply In_dispose_all in He. destruct He as [He Hlc].
    apply In_dispose_all in He. destruct He as [_ Hds].
    apply in_app_or in Hd. destruct Hd as [Hd|Hd].
    + specialize (Hds d Hd). unfold same_handle in Hds.
      apply Nat.eqb_neq in Hds. congruence.
    + specialize (Hlc d Hd). unfold same_handle in Hlc.
      apply Nat.eqb_neq in Hlc. congruence.
  - intros e He Hother.
    apply In_dispose_all. split.
    + apply In_dispose_all. split; [exact He|].
      intros d Hd. unfold same_handle. apply Nat.eqb_neq.
      apply Hother. apply in_or_app. left. exact Hd.
    + intros d Hd. unfold same_handle. apply Nat.eqb_neq.
      apply Hother. apply in_or_app. right. exact Hd.
Qed.

Lemma deactivate_before_activation_witness :
  snd (deactivate (newSession dormant_state)) = Throw (TypeError "ui is undefined").
Proof.
  assert (Hui : ui (core (newSession dormant_state)) = None).
  { vm_compute. reflexivity. }
  exact (proj1 (deactivate_before_activation _ Hui)).
Defined.

(** A change of settings reaches every client once, in the order of the
    registry and whatever the update channel says.  The update check is
    started only for a channel that is set, not empty and not Default;
    Default clears the update timer instead; nothing else is done. *)
Theorem settings_change_fan_out x cc channel :
  clients (core x) = Some cc ->
  let x' := fst (onDidChangeSettings channel x) in
  snd (onDidChangeSettings channel x) = Normal tt /\
  trace (core x') = trace (core x)
    ++ SettingsCall (ActiveClient cc) "getChangedSettings" "updateChannel"
       :: map (fun kc => ClientCall (snd kc) "onDidChangeSettings") (languageClients cc) /\
  hostCalls x' = hostCalls x ++
    match channel with
    | None => []
    | Some s =>
      if String.eqb s EmptyString then []
      else if String.eqb s "Default" then [ClearInterval (insiderUpdateTimer x)]
      else [StartUpdateCheck]
    end.
Proof.
  intros Hcl x'.
  assert (Hwp : wpS (onDidChangeSettings channel)
    (fun _ x1 =>
       trace (core x1) = trace (core x)
         ++ SettingsCall (ActiveClient cc) "getChangedSettings" "updateChannel"
            :: map (fun kc => ClientCall (snd kc) "onDidChangeSettings") (languageClients cc) /\
       hostCalls x1 = hostCalls x ++
         match channel with
         | None => []
         | Some s =>
           if String.eqb s EmptyString then []
           else if String.eqb s "Default" then [ClearInterval (insiderUpdateTimer x)]
           else [StartUpdateCheck]
         end)
    (fun _ _ => False) x).
  { unfold onDidChangeSettings, client_call, truthy.
    destruct channel as [s|].
    - destruct (String.eqb s EmptyString) eqn:Hempty; cbn [negb];
        [|destruct (String.eqb s "Default") eqn:Hdefault].
      all: repeat (first [rewrite Hcl | wpS_step | wp_step | wp_unfold];
                   fields; session_fields).
      all: try discriminate.
      all: split; [rewrite <- app_assoc; reflexivity | rewrite ?app_nil_r; reflexivity].
    - cbn [negb].
      repeat (first [rewrite Hcl | wpS_step | wp_step | wp_unfold];
              fields; session_fields).
      all: try discriminate.
      split; [rewrite <- app_assoc; reflexivity | rewrite ?app_nil_r; reflexivity]. }
  apply wpS_elim in Hwp. fold x' in Hwp.
  destruct (snd (onDidChangeSettings channel x)) as [[]|e]; [|destruct Hwp].
  split; [reflexivity | exact Hwp].
Qed.

Lemma settings_change_fan_out_witness :
  hostCalls (fst (onDidChangeSettings (Some "Insiders")
                    (newSession (active_state (multi_root_host EmptyString)))))
  = [StartUpdateCheck].
Proof.
  assert (Hcl : clients (core (newSession (active_state (multi_root_host EmptyString))))
                = Some two_clients).
  { vm_compute. reflexivity. }
  exact (proj2 (proj2 (settings_change_fan_out _ two_clients (Some "Insiders") Hcl))).
Defined.

(** Once full activation has occurred, the heartbeat and the listeners for
    visible editors, active editor, selection and settings run to
    completion in every state of the process. *)
Theorem listeners_never_throw_once_activated s :
  reachable s ->
  realActivationOccurred s = true ->
  completion onInterval s = Normal tt /\
  (forall editors, completion (onDidChangeVisibleTextEditors editors) s = Normal tt) /\
  (forall h, completion (onDidChangeActiveTextEditor h (activeTextEditor h)) s = Normal tt) /\
  (forall h event sel others,
     selections event = sel :: others ->
     completion (onDidChangeTextEditorSelection h event) s = Normal tt) /\
  (forall channel x, core x = s -> snd (onDidChangeSettings channel x) = Normal tt).
Proof.
  intros Hreach Hocc.
  destruct (proj1 (activation_state_is_consistent s Hreach) Hocc) as [Hsome Hui].
  destruct (clients s) as [cc|] eqn:Hcl; [clear Hsome|congruence].
  assert (Hrun : forall (m : M unit),
            wp m (fun _ _ => True) never s -> completion m s = Normal tt).
  { intros m Hwp. apply wp_normal in Hwp. destruct Hwp as ([] & Hnormal & _).
    exact Hnormal. }
  split; [|split; [|split; [|split]]].
  - apply Hrun. unfold onInterval, activeClient_call, client_call.
    repeat (first [rewrite Hcl | rewrite Hui | wp_step | wp_unfold]; fields).
    all: try discriminate; exact I.
  - intros editors. apply Hrun. unfold onDidChangeVisibleTextEditors, client_call.
    repeat (first [rewrite Hcl | rewrite Hui | wp_step | wp_unfold]; fields).
    all: try discriminate; exact I.
  - intros h. apply Hrun. unfold onDidChangeActiveTextEditor.
    repeat (first [rewrite Hcl | rewrite Hui | wp_step | wp_unfold]; fields).
    all: try discriminate; exact I.
  - intros h event sel others Hsel. apply Hrun. unfold onDidChangeTextEditorSelection.
    repeat (first [rewrite Hcl | rewrite Hui | rewrite Hsel | wp_step | wp_unfold]; fields).
    all: try discriminate; exact I.
  - intros channel x Hcore. subst s.
    exact (proj1 (settings_change_fan_out x cc channel Hcl)).
Qed.

Lemma listeners_never_throw_once_activated_witness :
  completion onInterval (active_state (quiet_host true)) = Normal tt.
Proof.
  assert (Hreach : reachable (active_state (quiet_host true))).
  { unfold active_state. apply reachable_step. apply reachable_init. }
  assert (Hocc : realActivationOccurred (active_state (quiet_host true)) = true).
  { vm_compute. reflexivity. }
  exact (proj1 (listeners_never_throw_once_activated _ Hreach Hocc)).
Defined.

(** * Full activation is permanent *)

Ltac occurred_solve :=
  unfold same_gate, activation_of, watchers_cancelled in *; fields;
  repeat match goal with H : _ /\ _ |- _ => destruct H end;
  try assumption; try congruence.

Lemma handler_keeps_activated c h arg s :
  realActivationOccurred s = true ->
  wp (handler c h arg) (fun _ s' => realActivationOccurred s' = true)
     (fun _ s' => realActivationOccurred s' = true) s.
Proof.
  intros Hocc. destruct c; cbn [handler].
  all: wp_auto.
  all: occurred_solve.
Qed.

Lemma activate_keeps_activated h b s :
  realActivationOccurred s = true ->
  wp (activate h b) (fun _ s' => realActivationOccurred s' = true)
     (fun _ s' => realActivationOccurred s' = true) s.
Proof.
  intros Hocc. unfold activate. wp_upto_register.
  all: try discriminate.
  all: eapply wp_conseq; [apply wp_registerCommands | |];
    [ intros a s2 Hsame; cbv beta; wp_auto; occurred_solve
    | intros a s2 Hsame; occurred_solve ].
Qed.

Lemma deliver_keeps_activated h ev s :
  realActivationOccurred s = true ->
  realActivationOccurred (exec (deliver h ev) s) = true.
Proof.
  intros Hocc.
  apply (wp_exec (deliver h ev) (fun s' => realActivationOccurred s' = true)).
  destruct ev as [b|d|c arg| | |e]; cbn [deliver].
  - apply activate_keeps_activated. exact Hocc.
  - wp_step. wp_step. cbv beta.
    apply (wp_forEach_inv (fun s' => realActivationOccurred s' = true)); [|exact Hocc].
    intros _ s1 H1. wp_auto. all: occurred_solve.
  - wp_step. wp_step. cbv beta. destruct (existsb _ _).
    + apply handler_keeps_activated. exact Hocc.
    + exact Hocc.
  - wp_auto. all: occurred_solve.
  - wp_auto. all: occurred_solve.
  - wp_step. wp_step. cbv beta.
    apply (wp_forEach_inv (fun s' => realActivationOccurred s' = true)); [|exact Hocc].
    intros _ s1 H1. wp_auto. all: occurred_solve.
Qed.

(** Nothing ever undoes full activation: from any state in which it has
    occurred, no sequence of activate calls, document events, commands,
    accessor calls and selection events brings the flag back to false. *)
Theorem activation_is_permanent events : forall s,
  realActivationOccurred s = true ->
  realActivationOccurred (run events s) = true.
Proof.
  unfold run. induction events as [|[h ev] events IH]; intros s Hocc.
  - exact Hocc.
  - cbn [fold_left]. apply IH. unfold step. cbn [fst snd].
    apply deliver_keeps_activated. exact Hocc.
Qed.

Lemma activation_is_permanent_witness :
  realActivationOccurred
    (run [(quiet_host true, EvActivate false);
          (quiet_host true, EvCommand AddToIncludePath "/usr/include")]
         (active_state (quiet_host true))) = true.
Proof.
  apply activation_is_permanent.
  vm_compute. reflexivity.
Defined.

(** Every registered command that goes through the gate leaves the process
    fully activated with no temporary watcher pending, in whatever state of
    the process it is invoked. *)
Theorem guarded_commands_leave_activated c h arg s :
  reachable s ->
  existsb (is_command (commandId c)) (listeners s) = true ->
  c <> AddToIncludePath ->
  realActivationOccurred (exec (handler c h arg) s) = true /\
  tempCommands (exec (handler c h arg) s) = [].
Proof.
  intros Hreach Hregistered Hc.
  destruct (reachable_invariant s Hreach) as (Hpre & _ & Hdef & _).
  destruct (tempCommands s) as [|d tc] eqn:Htc.
  - assert (Hocc : realActivationOccurred s = true).
    { destruct (realActivationOccurred s) eqn:Hocc; [reflexivity|].
      destruct (Hpre eq_refl eq_refl) as [Hnone _]. rewrite Hnone in Hregistered.
      discriminate. }
    apply (wp_exec (handler c h arg)
             (fun s' => realActivationOccurred s' = true /\ tempCommands s' = [])).
    destruct c; try congruence; cbn [handler].
    all: wp_auto.
    all: try congruence.
    all: fields; split; assumption.
  - assert (Hpending : tempCommands s <> []) by (rewrite Htc; discriminate).
    destruct (guarded_handlers_activate c h arg s Hc (Hdef ltac:(discriminate)) Hpending)
      as (Hocc & Hnone & _).
    split; assumption.
Qed.

Lemma guarded_commands_leave_activated_witness :
  realActivationOccurred
    (exec (handler TakeSurvey (quiet_host true) EmptyString) dormant_state) = true.
Proof.
  assert (Hreach : reachable dormant_state).
  { unfold dormant_state. apply reachable_step. apply reachable_init. }
  assert (Hreg : existsb (is_command (commandId TakeSurvey)) (listeners dormant_state)
                 = true).
  { vm_compute. reflexivity. }
  assert (Hc : TakeSurvey <> AddToIncludePath) by discriminate.
  exact (proj1 (guarded_commands_leave_activated TakeSurvey (quiet_host true) EmptyString
                  dormant_state Hreach Hreg Hc)).
Defined.

(** * The first activate of a process *)

(** [activate] creates the persisted-state object before anything else, and
    nothing drops it. *)
Lemma activate_creates_persisted_state h b s :
  wp (activate h b) (fun _ s' => activatedPreviously s' = true)
     (fun _ s' => activatedPreviously s' = true) s.
Proof.
  unfold activate. wp_upto_register.
  all: try discriminate.
  all: eapply wp_conseq; [apply wp_registerCommands | |];
    [ intros a s2 Hsame; cbv beta; wp_auto; occurred_solve
    | intros a s2 Hsame; occurred_solve ].
Qed.

Lemma handler_keeps_persisted_state c h arg s :
  activatedPreviously s = true ->
  wp (handler c h arg) (fun _ s' => activatedPreviously s' = true)
     (fun _ s' => activatedPreviously s' = true) s.
Proof.
  intros Hap. destruct c; cbn [handler].
  all: wp_auto.
  all: occurred_solve.
Qed.

Lemma deliver_keeps_persisted_state h ev s :
  activatedPreviously s = true ->
  wp (deliver h ev) (fun _ s' => activatedPreviously s' = true)
     (fun _ s' => activatedPreviously s' = true) s.
Proof.
  intros Hap. destruct ev as [b|d|c arg| | |e]; cbn [deliver].
  - apply activate_creates_persisted_state.
  - wp_step. wp_step. cbv beta.
    apply (wp_forEach_inv (fun s' => activatedPreviously s' = true)); [|exact Hap].
    intros _ s1 H1. wp_auto. all: occurred_solve.
  - wp_step. wp_step. cbv beta. destruct (existsb _ _).
    + apply handler_keeps_persisted_state. exact Hap.
    + exact Hap.
  - wp_auto. all: occurred_solve.
  - wp_auto. all: occurred_solve.
  - wp_step. wp_step. cbv beta.
    apply (wp_forEach_inv (fun s' => activatedPreviously s' = true)); [|exact Hap].
    intros _ s1 H1. wp_auto. all: occurred_solve.
Qed.

Ltac registered_solve :=
  unfold nothing_registered, same_gate, activation_of, watchers_cancelled in *; fields;
  repeat match goal with H : _ /\ _ |- _ => destruct H end;
  try (split; [congruence|]);
  try assumption; try congruence;
  try (intros d id Hd Hsub;
       match goal with
       | Hold : only_commands [] _, Hnew : forall d id, In d _ -> _ -> In d _ |- _ =>
         exact (Hold d id (Hnew d id Hd Hsub) Hsub)
       end).

(** The events that can precede the first [activate] register neither a
    watcher nor a command. *)
Lemma deliver_before_activate h ev s :
  activatedPreviously s = true \/ nothing_registered s ->
  wp (deliver h ev)
     (fun _ s' => activatedPreviously s' = true \/ nothing_registered s')
     (fun _ s' => activatedPreviously s' = true \/ nothing_registered s') s.
Proof.
  intros [Hap | Hnone].
  { eapply wp_conseq; [apply deliver_keeps_persisted_state; exact Hap | |];
      intros a s' H; left; exact H. }
  destruct ev as [b|d|c arg| | |e]; cbn [deliver].
  - eapply wp_conseq; [apply activate_creates_persisted_state | |];
      intros a s' H; left; exact H.
  - apply (wp_conseq _ (fun _ => nothing_registered) _ (fun _ => nothing_registered));
      [|intros a s' H; right; exact H|intros a s' H; right; exact H].
    wp_step. wp_step. cbv beta.
    apply (wp_forEach_inv nothing_registered); [|exact Hnone].
    intros _ s1 H1. wp_auto.
    all: try exact H1.
    all: unfold nothing_registered in H1; destruct H1 as [H1 _]; congruence.
  - wp_step. wp_step. cbv beta.
    rewrite (only_commands_fresh [] (listeners s) (commandId c) (proj2 Hnone))
      by (intros []).
    right. exact Hnone.
  - apply (wp_conseq _ (fun _ => nothing_registered) _ (fun _ => nothing_registered));
      [|intros a s' H; right; exact H|intros a s' H; right; exact H].
    wp_auto. all: registered_solve.
  - apply (wp_conseq _ (fun _ => nothing_registered) _ (fun _ => nothing_registered));
      [|intros a s' H; right; exact H|intros a s' H; right; exact H].
    wp_auto. all: registered_solve.
  - apply (wp_conseq _ (fun _ => nothing_registered) _ (fun _ => nothing_registered));
      [|intros a s' H; right; exact H|intros a s' H; right; exact H].
    wp_step. wp_step. cbv beta.
    apply (wp_forEach_inv nothing_registered); [|exact Hnone].
    intros _ s1 H1. wp_auto. all: registered_solve.
Qed.

Lemma nothing_registered_before_activate s :
  reachable s -> activatedPreviously s = false -> nothing_registered s.
Proof.
  intros Hreach.
  assert (H : activatedPreviously s = true \/ nothing_registered s).
  { induction Hreach as [stored manifest | s [h ev] Hreach IH].
    - right. split; [reflexivity | intros d id []].
    - unfold step. cbn [fst snd].
      apply (wp_exec (deliver h ev)
               (fun s' => activatedPreviously s' = true \/ nothing_registered s')).
      apply deliver_before_activate. exact IH. }
  intros Hap. destruct H as [H|H]; [congruence | exact H].
Qed.

(** The first [activate] of a process, whatever accessor calls came before
    it, returns normally.  With an activation event, stated by the caller
    or found by the scans, it ends fully activated with no watcher pending
    and the flag set.  Without one its watcher stays pending; full
    activation has then occurred exactly if an accessor had caused it
    before or the flag was stored, and a stored flag is cleared. *)
Theorem first_activate_of_process h (b : bool) s :
  reachable s ->
  activatedPreviously s = false ->
  let s' := exec (activate h b) s in
  let was_set := match workspaceState s with Some v => v | None => false end in
  completion (activate h b) s = Normal tt /\
  if b || some_folder_has_config h || some_document_is_c_or_cpp h
  then tempCommands s' = [] /\ realActivationOccurred s' = true /\
       workspaceState s' = Some true
  else tempCommands s' <> [] /\
       realActivationOccurred s' = realActivationOccurred s || was_set /\
       workspaceState s' = (if was_set then Some false else workspaceState s).
Proof.
  intros Hreach Hap s' was_set.
  destruct (nothing_registered_before_activate s Hreach Hap) as [Htc Honly].
  assert (Hwp : wp (activate h b)
    (fun _ s' =>
      if b || some_folder_has_config h || some_document_is_c_or_cpp h
      then tempCommands s' = [] /\ realActivationOccurred s' = true /\
           workspaceState s' = Some true
      else tempCommands s' <> [] /\
           realActivationOccurred s' = realActivationOccurred s || was_set /\
           workspaceState s' = (if was_set then Some false else workspaceState s))
    never s).
  { unfold activate. wp_upto_register.
    all: try discriminate.
    all: apply wp_registerCommands_first;
      [ unfold activation_of in *; fields;
        repeat match goal with H : _ /\ _ |- _ => destruct H end;
        intros d id Hd Hsub;
        try match goal with
            | H : forall d id, In d (listeners _) -> _ |- _ =>
              apply (Honly d id (H d id Hd Hsub) Hsub)
            end;
        try exact (Honly d id Hd Hsub)
      | intros s2 Hsame; wp_auto ].
    all: try snoc_nil; try congruence.
    all: unfold watchers_cancelled, same_gate, activation_of in *; fields;
      repeat match goal with H : _ /\ _ |- _ => destruct H end.
    all: try (exfalso; congruence).
    all: subst was_set.
    all: repeat match goal with
         | H : _ = true |- _ => rewrite H in *
         | H : _ = false |- _ => rewrite H in *
         end; cbn [orb] in *.
    all: repeat split; try congruence; try (intro; snoc_nil).
    all: try (rewrite ?orb_true_r, ?orb_false_r; congruence). }
  apply wp_normal in Hwp. destruct Hwp as ([] & Hnormal & Hpost).
  split; [exact Hnormal | exact Hpost].
Qed.

(** An accessor first, then [activate] with nothing to activate for: the
    process is fully activated although no activation event occurred. *)
Lemma first_activate_of_process_witness :
  let s := step (initialState None sample_manifest) (quiet_host true, EvGetClients) in
  completion (activate (quiet_host true) false) s = Normal tt /\
  realActivationOccurred (exec (activate (quiet_host true) false) s) = true.
Proof.
  intros s.
  assert (Hreach : reachable s).
  { unfold s. apply reachable_step. apply reachable_init. }
  assert (Hap : activatedPreviously s = false).
  { vm_compute. reflexivity. }
  pose proof (first_activate_of_process (quiet_host true) false s Hreach Hap) as Hspec.
  cbv zeta in Hspec. destruct Hspec as [Hnormal Hpost].
  assert (Hscan : false || some_folder_has_config (quiet_host true)
                  || some_document_is_c_or_cpp (quiet_host true) = false).
  { vm_compute. reflexivity. }
  rewrite Hscan in Hpost. destruct Hpost as (_ & Hocc & _).
  split; [exact Hnormal|]. rewrite Hocc. vm_compute. reflexivity.
Defined.

(** * More on the snippets toggle *)

Lemma findIndex_none_filter {A} (p : A -> bool) l :
  findIndex p l = None -> filter p l = [].
Proof.
  induction l as [|x l IH]; cbn [findIndex filter]; [reflexivity|].
  destruct (p x); [discriminate|].
  destruct (findIndex p l); [discriminate|]. intros _. apply IH. reflexivity.
Qed.

Lemma splice1_at_findIndex {A} (p : A -> bool) l : forall i,
  findIndex p l = Some i ->
  S (length (filter p (splice1 i l))) = length (filter p l) /\
  filter (fun x => negb (p x)) (splice1 i l) = filter (fun x => negb (p x)) l.
Proof.
  induction l as [|x l IH]; intros i; cbn [findIndex]; [discriminate|].
  destruct (p x) eqn:Hx.
  - intros [= <-]. cbn [splice1 filter]. rewrite Hx. cbn [negb length].
    split; reflexivity.
  - destruct (findIndex p l) as [j|]; [|discriminate].
    intros [= <-]. cbn [splice1 filter]. rewrite Hx. cbn [negb].
    destruct (IH j eq_refl) as [Hcount Hothers].
    split; [exact Hcount | rewrite Hothers; reflexivity].
Qed.

Lemma filter_none_findIndex {A} (p : A -> bool) l :
  filter p l = [] -> findIndex p l = None.
Proof.
  induction l as [|x l IH]; cbn [findIndex filter]; [reflexivity|].
  destruct (p x); [discriminate|].
  intros H. rewrite (IH H). reflexivity.
Qed.

Lemma strict_eq_string_true s value :
  strict_eq_string s value = true -> value = JString s.
Proof.
  destruct value; cbn [strict_eq_string]; try discriminate.
  intros H. apply String.eqb_eq in H. subst. reflexivity.
Qed.

(** [splice] at the index that [findIndex] returns takes out the first
    element that satisfies the test. *)
Lemma splice1_removes_first {A} (p : A -> bool) x after : forall before i,
  (forall y, In y before -> p y = false) ->
  p x = true ->
  findIndex p (before ++ x :: after) = Some i ->
  splice1 i (before ++ x :: after) = before ++ after.
Proof.
  induction before as [|y before IH]; intros i Hbefore Hx; cbn [app findIndex].
  - rewrite Hx. intros [= <-]. reflexivity.
  - rewrite (Hbefore y (or_introl eq_refl)).
    destruct (findIndex p (before ++ x :: after)) as [j|] eqn:Hj; [|discriminate].
    intros [= <-]. cbn [splice1]. f_equal.
    apply IH; [|exact Hx|reflexivity].
    intros z Hz. apply Hbefore. right. exact Hz.
Qed.

(** A toggle without a Snippets entry appends one; a toggle with one takes
    out the first and leaves every later one in place, so a manifest that
    lists the category twice still lists it after a toggle.  Hence the
    number of Snippets entries changes by exactly one, and the other
    categories keep their order. *)
Theorem toggleSnippets_changes_one_entry m :
  snippet_entries (fst (toggleSnippets m))
  = (if Nat.eqb (snippet_entries m) 0 then 1 else snippet_entries m - 1) /\
  other_categories (fst (toggleSnippets m)) = other_categories m /\
  (snippet_entries m = 0 ->
   categories (fst (toggleSnippets m)) = categories m ++ [JString snippetsCatName]) /\
  (forall before after,
   categories m = before ++ JString snippetsCatName :: after ->
   ~ In (JString snippetsCatName) before ->
   categories (fst (toggleSnippets m)) = before ++ after).
Proof.
  unfold snippet_entries, other_categories, toggleSnippets, indexOf.
  destruct (findIndex (strict_eq_string snippetsCatName) (categories m)) as [i|] eqn:Hfind.
  - cbn [fst categories].
    destruct (splice1_at_findIndex _ _ _ Hfind) as [Hcount Hothers].
    rewrite Hothers. split; [|split; [reflexivity|split]].
    + rewrite <- Hcount. cbn [Nat.eqb]. lia.
    + intros Hnone. apply length_zero_iff_nil in Hnone.
      apply filter_none_findIndex in Hnone. congruence.
    + intros before after Hcats Hfirst. rewrite Hcats in Hfind |- *.
      apply (splice1_removes_first (strict_eq_string snippetsCatName)).
      * intros y Hy. apply not_true_is_false. intros Heq.
        apply strict_eq_string_true in Heq. subst y. exact (Hfirst Hy).
      * cbn [strict_eq_string]. apply String.eqb_refl.
      * exact Hfind.
  - cbn [fst categories]. rewrite !filter_app.
    rewrite (findIndex_none_filter _ _ Hfind). cbn [filter app length Nat.eqb].
    split; [|split; [|split]].
    + reflexivity.
    + cbn. rewrite app_nil_r. reflexivity.
    + intros _. reflexivity.
    + intros before after Hcats _. exfalso.
      apply findIndex_none_filter in Hfind. rewrite Hcats, filter_app in Hfind.
      cbn [filter strict_eq_string] in Hfind. rewrite String.eqb_refl in Hfind.
      apply app_eq_nil in Hfind. destruct Hfind as [_ Hfind]. discriminate.
Qed.

(** A manifest without the category, and one that lists it twice. *)
Lemma toggleSnippets_changes_one_entry_witness :
  categories (fst (toggleSnippets (mkManifest [JString "Linters"] [])))
  = [JString "Linters"; JString "Snippets"] /\
  categories (fst (toggleSnippets
    (mkManifest [JString "Snippets"; JString "Linters"; JString "Snippets"]
                [("snippets", snippets_node)])))
  = [JString "Linters"; JString "Snippets"].
Proof.
  split.
  - apply (proj1 (proj2 (proj2 (toggleSnippets_changes_one_entry
                                  (mkManifest [JString "Linters"] []))))).
    reflexivity.
  - apply (proj2 (proj2 (proj2 (toggleSnippets_changes_one_entry
             (mkManifest [JString "Snippets"; JString "Linters"; JString "Snippets"]
                         [("snippets", snippets_node)]))))
             [] [JString "Linters"; JString "Snippets"]).
    + reflexivity.
    + simpl. tauto.
Defined.

Example toggle_with_duplicate_category :
  let m := mkManifest [JString "Snippets"; JString "Linters"; JString "Snippets"]
                      [("snippets", snippets_node)] in
  categories (fst (toggleSnippets m)) = [JString "Linters"; JString "Snippets"] /\
  contributes (fst (toggleSnippets m)) = [].
Proof. vm_compute. split; reflexivity. Qed.

(** * Showing the target of a header/source switch *)

Lemma showInVisibleEditors_found editors doc :
  showInVisibleEditors editors doc true = (true, []).
Proof.
  induction editors as [|editor rest IH]; cbn [showInVisibleEditors]; [reflexivity|].
  rewrite andb_false_r. exact IH.
Qed.

(** The target of a switch is shown exactly once: in the column of the
    first visible editor that already shows it, else in the column of the
    active editor, else without a column. *)
Theorem switch_target_shown_once visibleTextEditors active doc :
  showSwitchTarget visibleTextEditors active doc
  = [ShowTextDocument doc
       match find (fun editor => shows editor doc) visibleTextEditors with
       | Some editor => Some (viewColumn editor)
       | None =>
         match active with
         | Some activeEditor => Some (viewColumn activeEditor)
         | None => None
         end
       end].
Proof.
  unfold showSwitchTarget.
  induction visibleTextEditors as [|editor rest IH]; cbn [showInVisibleEditors find].
  - cbn [fst snd negb app]. destruct active; reflexivity.
  - destruct (shows editor doc); cbn [andb negb].
    + rewrite showInVisibleEditors_found. reflexivity.
    + exact IH.
Qed.
